(** * RFI_PROJ: the JSON-file backed assessment service and its client table

    A shallow embedding of the Express server that keeps the assessments in
    [public/data/assessments.json] (the variant with [readJsonFile] and
    [writeJsonFile]) and of the keyword filter and action buttons of
    [public/assets/js/app.js], with the properties of the specification
    stated and proved over them. *)

From Stdlib Require Import ZArith String Ascii List.
From Stdlib Require QArith.
From stdpp Require Import gmap strings list fin_maps pretty.

#[local] Set Warnings "-register-all".
#[local] Open Scope string_scope.

(** ** JavaScript values that [JSON.parse] can produce *)

Module Js.

(** A number is carried as the finite rational its literal denotes, and the
    handlers only ask whether it is zero.  The rounding of a literal to a
    double on the way in, and what [JSON.stringify] prints for a number on
    the way out, are not modelled: what is said below about the value of a
    field after a request is said of values without numbers.  An object is
    a finite map from property names to values: the order of the keys is
    not observed by any handler. *)
Inductive json : Type :=
| JNull
| JBool (b : bool)
| JNum (q : QArith_base.Q)
| JStr (s : string)
| JArr (l : list json)
| JObj (m : gmap string json).

(** The result of reading a property: [None] is [undefined]. *)
Definition truthy (v : option json) : bool :=
  match v with
  | None => false
  | Some JNull => false
  | Some (JBool b) => b
  | Some (JNum q) => negb (Z.eqb (QArith_base.Qnum q) 0)
  | Some (JStr s) => negb (String.eqb s "")
  | Some (JArr _) => true
  | Some (JObj _) => true
  end.

(** [v === s] for a string [s]. *)
Definition strict_eq_str (v : option json) (s : string) : bool :=
  match v with
  | Some (JStr t) => bool_decide (t = s)
  | _ => false
  end.

Inductive exn : Type :=
| TypeError
| IOError.

(** [a.id]: reading a property of [null] throws; no prototype of a string, a
    number, a boolean or an array defines [id]. *)
Definition read_id (a : json) : exn + option json :=
  match a with
  | JNull => inl TypeError
  | JObj m => inr (m !! "id")
  | _ => inr None
  end.

(** The own enumerable properties copied by [{...v}]. *)
Definition spread (v : option json) : gmap string json :=
  match v with
  | Some (JObj m) => m
  | Some (JArr l) => list_to_map (imap (fun i x => (pretty i, x)) l)
  | Some (JStr s) =>
      list_to_map
        (imap (fun i c => (pretty i, JStr (String c ""))) (list_ascii_of_string s))
  | _ => ∅
  end.

(** [arr.findIndex(a => a.id === id)] on the elements of an array; [None] is
    the result [-1]. *)
Fixpoint findIndex_from (id : string) (l : list json) : exn + option nat :=
  match l with
  | [] => inr None
  | a :: l' =>
      match read_id a with
      | inl e => inl e
      | inr v =>
          if strict_eq_str v id then inr (Some 0)
          else match findIndex_from id l' with
               | inl e => inl e
               | inr o => inr (S <$> o)
               end
      end
  end.

(** A value parsed from JSON has a [findIndex] or [push] method only when it
    is an array. *)
Definition findIndex (id : string) (v : json) : exn + option nat :=
  match v with
  | JArr l => findIndex_from id l
  | _ => inl TypeError
  end.

Definition push (v : json) (x : json) : exn + json :=
  match v with
  | JArr l => inr (JArr (l ++ [x]))
  | _ => inl TypeError
  end.

Definition at_index (v : json) (i : nat) : option json :=
  match v with
  | JArr l => l !! i
  | _ => None
  end.

(** [arr[i] = x] for an index inside the array, the only case the handlers
    reach. *)
Definition set_index (v : json) (i : nat) (x : json) : json :=
  match v with
  | JArr l => JArr (<[i := x]> l)
  | _ => v
  end.

(** *** [new Date().toISOString().split('T')[0]] *)

Definition pad (width : nat) (s : string) : string :=
  String.concat "" (List.repeat "0" (width - String.length s)) ++ s.

(** The calendar date of a time value in milliseconds since the epoch, in
    UTC, with the expanded year of [toISOString] outside 0000..9999. *)
Definition isoDate (t : Z) : string :=
  let z := (t / 86400000 + 719468)%Z in
  let era := (z / 146097)%Z in
  let doe := (z - era * 146097)%Z in
  let yoe := ((doe - doe / 1460 + doe / 36524 - doe / 146096) / 365)%Z in
  let doy := (doe - (365 * yoe + yoe / 4 - yoe / 100))%Z in
  let mp := ((5 * doy + 2) / 153)%Z in
  let d := (doy - (153 * mp + 2) / 5 + 1)%Z in
  let m := (if (mp <? 10)%Z then mp + 3 else mp - 9)%Z in
  let y := (yoe + era * 400 + (if (m <=? 2)%Z then 1 else 0))%Z in
  let year :=
    if ((0 <=? y) && (y <=? 9999))%Z then pad 4 (pretty y)
    else (if (y <? 0)%Z then "-" else "+") ++ pad 6 (pretty (Z.abs y)) in
  year ++ "-" ++ pad 2 (pretty m) ++ "-" ++ pad 2 (pretty d).

End Js.

(** ** The server: Express handlers over [assessments.json] *)

Module Server.
Import Js.

(** What the disk holds at [public/data/assessments.json]: no file, a file
    whose text parses to a value, or a file that cannot be read or parsed.
    A file the server wrote is represented by the value it serialised. *)
Inductive file : Type :=
| Missing
| Holds (v : json)
| Unreadable.

(** What [fs.writeFile] will do when the handler reaches it: succeed, or
    fail and leave some file behind. *)
Inductive write_outcome : Type :=
| Written
| WriteFailed (remains : file).

(** What one request observes of the machine: the value of [Date.now()], of
    the successive [new Date()] calls, and the fate of its write. *)
Record env : Type := {
  date_now : Z;
  new_Date : nat -> Z;
  disk_write : write_outcome
}.

Record response : Type := {
  status : Z;
  body : json
}.

Definition error_body (msg : string) : json := JObj {[ "error" := JStr msg ]}.

(** Handlers run against the file and may throw. *)
Definition M (A : Type) : Type := file -> (exn + A) * file.

Definition ret {A} (a : A) : M A := fun f => (inr a, f).

Definition throw {A} (e : exn) : M A := fun f => (inl e, f).

Definition bind {A B} (c : M A) (k : A -> M B) : M B :=
  fun f =>
    match c f with
    | (inl e, f') => (inl e, f')
    | (inr a, f') => k a f'
    end.

Definition lift {A} (r : exn + A) : M A :=
  match r with
  | inl e => throw e
  | inr a => ret a
  end.

(** [try { c } catch (error) { h }] around a whole handler body. *)
Definition try_catch {A} (c : M A) (h : exn -> A) : file -> A * file :=
  fun f =>
    match c f with
    | (inl e, f') => (h e, f')
    | (inr a, f') => (a, f')
    end.

Declare Scope handler_scope.
Delimit Scope handler_scope with handler.
Notation "x <- c ;; k" := (bind c (fun x => k))
  (at level 100, c at next level, right associativity) : handler_scope.
Notation "c ;;; k" := (bind c (fun _ => k))
  (at level 100, right associativity) : handler_scope.
#[local] Open Scope handler_scope.

Definition readJsonFile : M json :=
  fun f =>
    match f with
    | Missing => (inr (JArr []), f)
    | Holds v => (inr v, f)
    | Unreadable => (inl IOError, f)
    end.

Definition writeJsonFile (w : write_outcome) (data : json) : M unit :=
  fun _ =>
    match w with
    | Written => (inr tt, Holds data)
    | WriteFailed remains => (inl IOError, remains)
    end.

(** The guard shared by POST and PUT:
    [!body.processName || !body.status]. *)
Definition missing_required (b : gmap string json) : bool :=
  negb (truthy (b !! "processName")) || negb (truthy (b !! "status")).

(** [app.get('/api/assessments')] *)
Definition get_assessments : file -> response * file :=
  try_catch
    (assessments <- readJsonFile ;;
     ret {| status := 200; body := assessments |})
    (fun _ => {| status := 500; body := error_body "Failed to retrieve assessments" |}).

(** The record POST stores: the request body with the three server fields
    assigned over it. *)
Definition stamped (e : env) (newAssessment : gmap string json) : gmap string json :=
  <["lastModified" := JStr (isoDate (new_Date e 1))]>
    (<["createdDate" := JStr (isoDate (new_Date e 0))]>
       (<["id" := JStr (pretty (date_now e))]> newAssessment)).

(** [app.post('/api/assessments')]; the request body is the object produced
    by the JSON body parser (an array, which the parser also lets through,
    has neither field and is answered like an object without them). *)
Definition post_assessments (e : env) (newAssessment : gmap string json)
  : file -> response * file :=
  try_catch
    (if missing_required newAssessment
     then ret {| status := 400; body := error_body "Process Name and Status are required." |}
     else
       assessments <- readJsonFile ;;
       let newAssessment := stamped e newAssessment in
       assessments <- lift (push assessments (JObj newAssessment)) ;;
       writeJsonFile (disk_write e) assessments ;;;
       ret {| status := 201; body := JObj newAssessment |})
    (fun _ => {| status := 500; body := error_body "Failed to create assessment" |}).

(** The object literal of the PUT handler:
    [{...old, ...patch, id: assessmentId, lastModified: today}]. *)
Definition merged (e : env) (assessmentId : string) (old : option json)
    (patch : gmap string json) : gmap string json :=
  <["lastModified" := JStr (isoDate (new_Date e 0))]>
    (<["id" := JStr assessmentId]> (patch ∪ spread old)).

(** [app.put('/api/assessments/:id')] *)
Definition put_assessments (e : env) (assessmentId : string)
    (updatedAssessmentData : gmap string json) : file -> response * file :=
  try_catch
    (if missing_required updatedAssessmentData
     then ret {| status := 400; body := error_body "Process Name and Status are required." |}
     else
       assessments <- readJsonFile ;;
       index <- lift (findIndex assessmentId assessments) ;;
       match index with
       | None => ret {| status := 404; body := error_body "Assessment not found" |}
       | Some i =>
           let updated :=
             merged e assessmentId (at_index assessments i) updatedAssessmentData in
           let assessments := set_index assessments i (JObj updated) in
           writeJsonFile (disk_write e) assessments ;;;
           ret {| status := 200; body := JObj updated |}
       end)
    (fun _ => {| status := 500; body := error_body "Failed to update assessment" |}).

(** The variant of the server that sends the file itself answers a missing
    file with 404 before [res.sendFile] is reached. *)
Definition sendfile_variant_guard (f : file) : option response :=
  match f with
  | Missing => Some {| status := 404; body := error_body "assessments.json not found" |}
  | _ => None
  end.

(** A stored collection of records: the file holds an array of objects. *)
Definition collection (recs : list (gmap string json)) : file :=
  Holds (JArr (JObj <$> recs)).

End Server.

(** ** The client: keyword filter and action buttons of [app.js] *)

Module Client.

(** A row as the page reads it: a map from field names to the strings the
    server sent; [None] stands for a field that is missing or [null], which
    [??] and [===] treat alike.  Strings are sequences of ASCII characters. *)
Abbreviation row := (gmap string string).

Definition lower_char (c : ascii) : ascii :=
  let n := nat_of_ascii c in
  if (65 <=? n)%nat && (n <=? 90)%nat then ascii_of_nat (n + 32) else c.

Fixpoint toLowerCase (s : string) : string :=
  match s with
  | EmptyString => EmptyString
  | String c s' => String (lower_char c) (toLowerCase s')
  end.

(** Tab, line feed, vertical tab, form feed, carriage return and space. *)
Definition is_space (c : ascii) : bool :=
  let n := nat_of_ascii c in
  ((9 <=? n)%nat && (n <=? 13)%nat) || (n =? 32)%nat.

Fixpoint trimStart (s : string) : string :=
  match s with
  | EmptyString => EmptyString
  | String c s' => if is_space c then trimStart s' else s
  end.

Fixpoint trimEnd (s : string) : string :=
  match s with
  | EmptyString => EmptyString
  | String c s' =>
      let t := trimEnd s' in
      if is_space c && String.eqb t "" then EmptyString else String c t
  end.

Definition trim (s : string) : string := trimEnd (trimStart s).

(** [(s ?? "").toString().toLowerCase().trim()] *)
Definition normalize (s : option string) : string :=
  trim (toLowerCase (default "" s)).

(** [h.includes(k)] *)
Fixpoint includes (h k : string) : bool :=
  String.prefix k h ||
  match h with
  | EmptyString => false
  | String _ h' => includes h' k
  end.

Definition haystack (a : row) : string :=
  String.concat " | "
    (List.map normalize [a !! "processName"; a !! "content"; a !! "location"]).

Definition matchesKeyword (a : row) (keyword : string) : bool :=
  let k := normalize (Some keyword) in
  if String.eqb k "" then true
  else includes (haystack a) k.

(** The rows kept by the input listener:
    [allRows.filter(a => matchesKeyword(a, kw))]. *)
Definition search (kw : string) (allRows : list row) : list row :=
  List.filter (fun a => matchesKeyword a kw) allRows.

(** The attribute interpolated into the Edit button:
    [a.status === "Approved" ? "disabled" : ""]. *)
Definition editAttr (a : row) : string :=
  if bool_decide (a !! "status" = Some "Approved") then "disabled" else "".

(** The attribute interpolated into the Submit button:
    [a.status === "Draft" ? "" : "disabled"]. *)
Definition submitAttr (a : row) : string :=
  if bool_decide (a !! "status" = Some "Draft") then "" else "disabled".

(** [k] occurs in [h]. *)
Definition substring_of (k h : string) : Prop :=
  exists pre post, h = pre ++ k ++ post.

(** The filter as the specification words it: the lowercased keyword occurs
    in the lowercased concatenation of the three fields, and the empty
    keyword keeps everything. *)
Definition spec_keeps (a : row) (keyword : string) : Prop :=
  keyword = "" \/
  substring_of (toLowerCase keyword)
    (toLowerCase (default "" (a !! "processName") ++
                  default "" (a !! "content") ++
                  default "" (a !! "location"))).

Definition alpha : row :=
  {[ "processName" := "Alpha"; "content" := "x"; "location" := "Calgary" ]}.

Definition beta : row :=
  {[ "processName" := "Beta"; "content" := "y"; "location" := "Red Deer" ]}.

End Client.

(** ** Vocabulary of the specification *)

Module Spec.
Import Js Server.

(** The array a handler works on: what [readJsonFile] hands it, when that is
    an array. *)
Definition array_of (f : file) : option (list json) :=
  match f with
  | Missing => Some []
  | Holds (JArr l) => Some l
  | _ => None
  end.

(** The stored collection consists of the records [recs]. *)
Definition stored (f : file) (recs : list (gmap string json)) : Prop :=
  array_of f = Some (JObj <$> recs).

(** The value [a] is a record whose [id] is the string [id]. *)
Definition has_id (id : string) (a : json) : Prop :=
  exists m, a = JObj m /\ m !! "id" = Some (JStr id).

(** The two mutating requests of the API. *)
Inductive mutation : Type :=
| Create (body : gmap string json)
| Update (id : string) (body : gmap string json).

Definition apply_mutation (e : env) (m : mutation) : file -> response * file :=
  match m with
  | Create b => post_assessments e b
  | Update id b => put_assessments e id b
  end.

Definition success_status (m : mutation) : Z :=
  match m with
  | Create _ => 201
  | Update _ _ => 200
  end.

End Spec.

(** ** Sample requests and stores *)

Module Samples.
Import Js Server.

Definition evening : env :=
  {| date_now := 1700000000000%Z;
     new_Date := fun _ => 1700000000000%Z;
     disk_write := Written |}.

Definition next_day : env :=
  {| date_now := 1700090000000%Z;
     new_Date := fun _ => 1700090000000%Z;
     disk_write := Written |}.

Definition payroll : gmap string json :=
  {[ "processName" := JStr "Payroll Export"; "status" := JStr "Draft" ]}.

Definition payroll_review : gmap string json :=
  {[ "processName" := JStr "Payroll Export"; "status" := JStr "In Review" ]}.

Definition no_status : gmap string json :=
  {[ "processName" := JStr "Payroll Export"; "status" := JStr "" ]}.

(** A creation request that tries to choose the server's fields. *)
Definition forged : gmap string json :=
  {[ "processName" := JStr "Payroll Export"; "status" := JStr "Draft";
     "id" := JStr "mine"; "createdDate" := JStr "1999-12-31";
     "lastModified" := JStr "1999-12-31" ]}.

Definition stored_payroll : gmap string json :=
  {[ "id" := JStr "1"; "processName" := JStr "Payroll Export";
     "status" := JStr "Draft"; "createdDate" := JStr "2024-01-01";
     "lastModified" := JStr "2024-01-01" ]}.

Definition stored_audit : gmap string json :=
  {[ "id" := JStr "2"; "processName" := JStr "Audit Log";
     "status" := JStr "Approved"; "createdDate" := JStr "2024-02-02";
     "lastModified" := JStr "2024-02-03" ]}.

(** An update that carries a creation date of its own. *)
Definition backdated : gmap string json :=
  {[ "processName" := JStr "Payroll Export"; "status" := JStr "In Review";
     "createdDate" := JStr "1999-12-31" ]}.

Definition two_records : file := collection [stored_payroll; stored_audit].

End Samples.

(** ** The JSON routes of the application *)

Module Routes.
Import Js Server.
#[local] Open Scope handler_scope.

(** The two files under [public/data] that the routes name. *)
Record disk : Type := {
  assessments_json : file;
  rfis_json : file
}.

(** [app.get('/api/rfis')]: the same read as for the assessments, against
    [rfis.json]. *)
Definition get_rfis : file -> response * file :=
  try_catch
    (rfis <- readJsonFile ;;
     ret {| status := 200; body := rfis |})
    (fun _ => {| status := 500; body := error_body "Failed to retrieve RFIs" |}).

Inductive request : Type :=
| GetAssessments
| PostAssessments (body : gmap string json)
| PutAssessments (id : string) (body : gmap string json)
| GetRfis.

(** Each handler builds the path of the one file it opens. *)
Definition on_assessments (h : file -> response * file) (d : disk) : response * disk :=
  let (r, f') := h (assessments_json d) in
  (r, {| assessments_json := f'; rfis_json := rfis_json d |}).

Definition on_rfis (h : file -> response * file) (d : disk) : response * disk :=
  let (r, f') := h (rfis_json d) in
  (r, {| assessments_json := assessments_json d; rfis_json := f' |}).

(** The routing table of the server. *)
Definition serve (e : env) (req : request) : disk -> response * disk :=
  match req with
  | GetAssessments => on_assessments get_assessments
  | PostAssessments b => on_assessments (post_assessments e b)
  | PutAssessments id b => on_assessments (put_assessments e id b)
  | GetRfis => on_rfis get_rfis
  end.

End Routes.

(** ** The page: content preview and the search box of [app.js] *)

Module Page.
Import Client.




(** What [initMyAssessments] keeps once the rows are fetched: the rows as
    loaded, the rows on display, and the text of the status line. *)
Record page : Type := {
  allRows : list row;
  current : list row;
  statusText : string
}.

(** [`${current.length} record(s)`] *)
Definition countText (rows : list row) : string :=
  pretty (List.length rows) ++ " record(s)".

(** The page after [fetchJson] has delivered the rows. *)
Definition loaded (rows : list row) : page :=
  {| allRows := rows; current := rows; statusText := countText rows |}.

(** The [input] listener of the search box, with [kw] the value of the box. *)
Definition on_input (kw : string) (p : page) : page :=
  let shown := search kw (allRows p) in
  {| allRows := allRows p; current := shown; statusText := countText shown |}.

(** The page after the box has held the values [kws] in turn. *)
Definition typed (kws : list string) (p : page) : page :=
  List.fold_left (fun q kw => on_input kw q) kws p.

End Page.

(** ** More sample requests and rows *)

Module Scenarios.
Import Js Server Routes.

(** A file a person edited: the first entry is [null]. *)
Definition null_entry : file :=
  Holds (JArr [JNull; JObj Samples.stored_payroll]).

(** A file that holds an object, not an array. *)
Definition not_an_array : file := Holds (JObj Samples.stored_payroll).

(** Two records that were given the same id. *)
Definition twin : gmap string json :=
  {[ "id" := JStr "1"; "processName" := JStr "Twin";
     "status" := JStr "Draft"; "fctFunction" := JStr "Finance" ]}.

Definition twins : file := collection [Samples.stored_payroll; twin].

Definition a_disk : disk :=
  {| assessments_json := Samples.two_records; rfis_json := Missing |}.

(** A creation request with a field the server knows nothing about. *)
Definition with_medium : gmap string json :=
  {[ "processName" := JStr "Payroll Export"; "status" := JStr "Draft";
     "medium" := JStr "Electronic" ]}.

Definition long_row : Client.row :=
  {[ "processName" := "Gamma";
     "content" := "0123456789012345678901234567890123456789 and more" ]}.

End Scenarios.

(** ** Values that are written and read back as they are *)

Module Values.
Import Js.

(** A value with no number in it: [JSON.stringify] followed by [JSON.parse]
    gives it back unchanged. *)
Inductive number_free : json -> Prop :=
| number_free_null : number_free JNull
| number_free_bool (b : bool) : number_free (JBool b)
| number_free_str (s : string) : number_free (JStr s)
| number_free_arr (l : list json) :
    Forall number_free l -> number_free (JArr l)
| number_free_obj (m : gmap string json) :
    (forall k v, m !! k = Some v -> number_free v) -> number_free (JObj m).

End Values.

(** ** The markup of the action buttons *)

Module Buttons.
Import Client.








End Buttons.

(** * Properties *)

Import Js Server Spec.

Example isoDate_epoch : Js.isoDate 0 = "1970-01-01".
Proof. reflexivity. Qed.

Example isoDate_leap_day : Js.isoDate 1582934400000 = "2020-02-29".
Proof. vm_compute. reflexivity. Qed.

Example isoDate_late_evening : Js.isoDate 1700000000000 = "2023-11-14".
Proof. vm_compute. reflexivity. Qed.

Example isoDate_before_epoch : Js.isoDate (-1) = "1969-12-31".
Proof. vm_compute. reflexivity. Qed.

Example search_calgary : Client.search "calgary" [Client.alpha; Client.beta] = [Client.alpha].
Proof. vm_compute. reflexivity. Qed.

(** ** The record store *)

Section Store.

Implicit Types (e : env) (f : file) (b m : gmap string json) (l : list json).

Lemma array_of_read f l :
  array_of f = Some l -> readJsonFile f = (inr (JArr l), f).
Proof.
  destruct f as [|v|]; simpl; try discriminate.
  - intros [= <-]. reflexivity.
  - destruct v; try discriminate. intros [= <-]. reflexivity.
Qed.

Lemma stamped_id e b : stamped e b !! "id" = Some (JStr (pretty (date_now e))).
Proof. unfold stamped. by simplify_map_eq. Qed.

Lemma stamped_createdDate e b :
  stamped e b !! "createdDate" = Some (JStr (isoDate (new_Date e 0))).
Proof. unfold stamped. by simplify_map_eq. Qed.

Lemma stamped_lastModified e b :
  stamped e b !! "lastModified" = Some (JStr (isoDate (new_Date e 1))).
Proof. unfold stamped. by simplify_map_eq. Qed.

Lemma stamped_other e b k :
  k <> "id" -> k <> "createdDate" -> k <> "lastModified" ->
  stamped e b !! k = b !! k.
Proof. intros. unfold stamped. by simplify_map_eq. Qed.

(** The guard is exactly: one of the two fields is falsy. *)
Lemma missing_required_false b :
  missing_required b = false <->
  truthy (b !! "processName") = true /\ truthy (b !! "status") = true.
Proof.
  unfold missing_required.
  destruct (truthy (b !! "processName")), (truthy (b !! "status")); simpl; intuition congruence.
Qed.

(** A string field is truthy exactly when it is not the empty string, and a
    field that is absent is falsy. *)
Lemma truthy_string s : truthy (Some (JStr s)) = true <-> s <> "".
Proof.
  simpl. destruct (String.eqb_spec s ""); simpl; intuition congruence.
Qed.

Lemma truthy_absent : truthy None = false.
Proof. reflexivity. Qed.

(** POST on a body that passes the guard, a store that holds an array and a
    disk that takes the write. *)
Lemma post_assessments_created e b f l :
  missing_required b = false ->
  array_of f = Some l ->
  disk_write e = Written ->
  post_assessments e b f =
    ({| status := 201; body := JObj (stamped e b) |},
     Holds (JArr (l ++ [JObj (stamped e b)]))).
Proof.
  intros Hreq Hf Hw. unfold post_assessments, try_catch, bind.
  rewrite Hreq, (array_of_read _ _ Hf). simpl.
  unfold writeJsonFile. rewrite Hw. reflexivity.
Qed.

(** Conversely, a 201 from POST can only come from that path. *)
Lemma post_assessments_201_inv e b f r f' :
  post_assessments e b f = (r, f') -> status r = 201%Z ->
  missing_required b = false /\ disk_write e = Written /\
  exists l, array_of f = Some l.
Proof.
  unfold post_assessments, try_catch, bind.
  destruct (missing_required b) eqn:Hreq.
  { simpl. intros [= <- <-]. discriminate. }
  unfold readJsonFile, writeJsonFile.
  destruct f as [|v|]; simpl.
  - destruct (disk_write e); intros [= <- <-]; [eauto | discriminate].
  - destruct v; simpl; try (intros [= <- <-]; discriminate).
    destruct (disk_write e); intros [= <- <-]; [eauto | discriminate].
  - intros [= <- <-]. discriminate.
Qed.

Lemma strict_eq_str_true v id : strict_eq_str v id = true <-> v = Some (JStr id).
Proof.
  destruct v as [[]|]; simpl; try (split; [discriminate | congruence]).
  rewrite bool_decide_eq_true. split; congruence.
Qed.

(** The callback of [findIndex] answers true exactly on the records that
    carry the id. *)
Lemma callback_true id a v :
  read_id a = inr v -> (strict_eq_str v id = true <-> has_id id a).
Proof.
  intros Hr. rewrite strict_eq_str_true. unfold has_id.
  destruct a as [ | | | | |m0]; simpl in Hr; try discriminate; injection Hr as <-.
  1-4: split; [discriminate | intros (m' & Hm & _); discriminate].
  split; [eauto|]. intros (m' & Hm & H). injection Hm as ->. exact H.
Qed.

Lemma findIndex_from_cons_record id m l :
  findIndex_from id (JObj m :: l) =
    if strict_eq_str (m !! "id") id then inr (Some 0)
    else match findIndex_from id l with
         | inl ex => inl ex
         | inr o => inr (S <$> o)
         end.
Proof. reflexivity. Qed.

Lemma findIndex_from_records_none id (recs : list (gmap string json)) :
  Forall (fun r => r !! "id" <> Some (JStr id)) recs ->
  findIndex_from id (JObj <$> recs) = inr None.
Proof.
  induction 1 as [|r recs Hr _ IH]; [reflexivity|].
  rewrite fmap_cons, findIndex_from_cons_record.
  destruct (strict_eq_str (r !! "id") id) eqn:E.
  - apply strict_eq_str_true in E. contradiction.
  - rewrite IH. reflexivity.
Qed.

(** What a found index means: the element there is a record with the id,
    and the callback ran without throwing and answered false before it. *)
Lemma findIndex_from_some id l i :
  findIndex_from id l = inr (Some i) ->
  (exists m, l !! i = Some (JObj m) /\ m !! "id" = Some (JStr id)) /\
  (forall j a, j < i -> l !! j = Some a -> ~ has_id id a).
Proof.
  revert i. induction l as [|a l IH]; simpl; intros i; [discriminate|].
  destruct (read_id a) as [ex|v] eqn:Hr; [discriminate|].
  destruct (strict_eq_str v id) eqn:E.
  - intros [= <-]. split; [|intros j a' Hj; lia].
    apply (callback_true id a v Hr) in E. destruct E as (m & -> & Hm). eauto.
  - destruct (findIndex_from id l) as [ex|[i'|]] eqn:Hrec; simpl; try discriminate.
    intros [= <-]. destruct (IH i' eq_refl) as [Hfound Hbefore]. split; [exact Hfound|].
    intros [|j] a' Hj; simpl.
    + intros [= <-] Hid. apply (callback_true id a v Hr) in Hid. congruence.
    + apply Hbefore. lia.
Qed.

(** A record with the id somewhere in a collection of records is found. *)
Lemma findIndex_from_records_some id (recs : list (gmap string json)) r :
  r ∈ recs -> r !! "id" = Some (JStr id) ->
  exists i, findIndex_from id (JObj <$> recs) = inr (Some i).
Proof.
  intros Hin Hid. induction recs as [|r' recs IH]; [by apply elem_of_nil in Hin|].
  rewrite fmap_cons, findIndex_from_cons_record.
  destruct (strict_eq_str (r' !! "id") id) eqn:E; [eauto|].
  apply elem_of_cons in Hin as [->|Hin].
  - apply strict_eq_str_true in Hid. congruence.
  - destruct (IH Hin) as [i ->]. simpl. eauto.
Qed.

(** Replacing the found element by another record with the id does not move
    the index. *)
Lemma findIndex_from_insert id l i m :
  findIndex_from id l = inr (Some i) ->
  m !! "id" = Some (JStr id) ->
  findIndex_from id (<[i := JObj m]> l) = inr (Some i).
Proof.
  revert i. induction l as [|a l IH]; simpl; intros i; [discriminate|].
  destruct (read_id a) as [ex|v] eqn:Hr; [discriminate|].
  destruct (strict_eq_str v id) eqn:E.
  - intros [= <-] Hm. simpl. apply strict_eq_str_true in Hm. rewrite Hm. reflexivity.
  - destruct (findIndex_from id l) as [ex|[i'|]] eqn:Hrec; simpl; try discriminate.
    intros [= <-] Hm. simpl. rewrite Hr, E, (IH i' eq_refl Hm). reflexivity.
Qed.

Lemma merged_id e id old b : merged e id old b !! "id" = Some (JStr id).
Proof. unfold merged. by simplify_map_eq. Qed.

Lemma merged_lastModified e id old b :
  merged e id old b !! "lastModified" = Some (JStr (isoDate (new_Date e 0))).
Proof. unfold merged. by simplify_map_eq. Qed.

(** Every other field comes from the request body when the body has it, and
    from the stored record otherwise. *)
Lemma merged_other e id old b k :
  k <> "id" -> k <> "lastModified" ->
  merged e id old b !! k =
    match b !! k with
    | Some v => Some v
    | None => spread old !! k
    end.
Proof.
  intros. unfold merged. rewrite !lookup_insert_ne by congruence.
  rewrite lookup_union. destruct (b !! k), (spread old !! k); reflexivity.
Qed.

(** PUT on a body that passes the guard, when the index is found and the
    disk takes the write. *)
Lemma put_assessments_updated e id b f l i :
  missing_required b = false ->
  array_of f = Some l ->
  findIndex_from id l = inr (Some i) ->
  disk_write e = Written ->
  put_assessments e id b f =
    ({| status := 200; body := JObj (merged e id (l !! i) b) |},
     Holds (JArr (<[i := JObj (merged e id (l !! i) b)]> l))).
Proof.
  intros Hreq Hf Hi Hw. unfold put_assessments, try_catch, bind.
  rewrite Hreq, (array_of_read _ _ Hf). simpl. rewrite Hi. simpl.
  unfold writeJsonFile. rewrite Hw. reflexivity.
Qed.

Lemma put_assessments_not_found e id b f l :
  missing_required b = false ->
  array_of f = Some l ->
  findIndex_from id l = inr None ->
  put_assessments e id b f =
    ({| status := 404; body := error_body "Assessment not found" |}, f).
Proof.
  intros Hreq Hf Hi. unfold put_assessments, try_catch, bind.
  rewrite Hreq, (array_of_read _ _ Hf). simpl. rewrite Hi. reflexivity.
Qed.

(** Conversely, a 200 from PUT can only come from the update path. *)
Lemma put_assessments_200_inv e id b f r f' :
  put_assessments e id b f = (r, f') -> status r = 200%Z ->
  missing_required b = false /\ disk_write e = Written /\
  exists l i, array_of f = Some l /\ findIndex_from id l = inr (Some i).
Proof.
  unfold put_assessments, try_catch, bind.
  destruct (missing_required b) eqn:Hreq.
  { simpl. intros [= <- <-]. discriminate. }
  unfold readJsonFile, writeJsonFile.
  destruct f as [|v|]; simpl.
  - intros [= <- <-]. discriminate.
  - destruct v; simpl; try (intros [= <- <-]; discriminate).
    destruct (findIndex_from id l) as [ex|[i|]] eqn:Hi; simpl;
      try (intros [= <- <-]; discriminate).
    destruct (disk_write e); intros [= <- <-]; [|discriminate].
    intros _. repeat split; eauto.
  - intros [= <- <-]. discriminate.
Qed.

End Store.

(** ** Properties of the API *)

Section Api.

Implicit Types (e : env) (f : file) (b m : gmap string json) (l : list json).

Lemma stored_collection (recs : list (gmap string json)) : stored (collection recs) recs.
Proof. reflexivity. Qed.

Lemma stored_missing : stored Missing [].
Proof. reflexivity. Qed.

(** C1: a creation request whose [processName] and [status] are truthy (a
    non-empty string is) is answered 201 with the stored record, given a
    store that holds an array (or no file yet) and a disk that takes the
    write; the record carries the assigned id and is an element of the
    array a following GET returns with status 200. *)
Theorem post_created_then_listed e b f l :
  truthy (b !! "processName") = true ->
  truthy (b !! "status") = true ->
  array_of f = Some l ->
  disk_write e = Written ->
  exists rec f',
    post_assessments e b f = ({| status := 201; body := JObj rec |}, f') /\
    array_of f' = Some (l ++ [JObj rec])%list /\
    has_id (pretty (date_now e)) (JObj rec) /\
    exists arr,
      get_assessments f' = ({| status := 200; body := JArr arr |}, f') /\
      In (JObj rec) arr.
Proof.
  intros Hp Hs Hf Hw.
  assert (Hreq : missing_required b = false) by (apply missing_required_false; auto).
  exists (stamped e b), (Holds (JArr (l ++ [JObj (stamped e b)]))).
  split; [apply post_assessments_created; assumption|].
  split; [reflexivity|].
  split; [exists (stamped e b); split; [reflexivity | apply stamped_id]|].
  exists (l ++ [JObj (stamped e b)])%list. split; [reflexivity|].
  apply in_or_app. right. left. reflexivity.
Qed.

(** C3: a creation request in which [processName] or [status] is falsy
    (absent, or the empty string) is answered 400 and the file is left as
    it was, whatever it holds. *)
Theorem post_missing_field_rejected e b f :
  truthy (b !! "processName") = false \/ truthy (b !! "status") = false ->
  exists r, post_assessments e b f = (r, f) /\ status r = 400%Z.
Proof.
  intros H.
  assert (Hreq : missing_required b = true).
  { unfold missing_required. destruct H as [-> | ->]; [reflexivity|].
    apply orb_true_r. }
  unfold post_assessments, try_catch. rewrite Hreq. simpl. eauto.
Qed.

(** C4: an update whose body has both required fields, on a collection in
    which no record has the id of the path, is answered 404 and the file is
    left as it was. *)
Theorem put_unknown_id_not_found e id b f (recs : list (gmap string json)) :
  truthy (b !! "processName") = true ->
  truthy (b !! "status") = true ->
  stored f recs ->
  Forall (fun r => r !! "id" <> Some (JStr id)) recs ->
  exists r, put_assessments e id b f = (r, f) /\ status r = 404%Z.
Proof.
  intros Hp Hs Hf Hno.
  assert (Hreq : missing_required b = false) by (apply missing_required_false; auto).
  exists {| status := 404; body := error_body "Assessment not found" |}.
  split; [|reflexivity].
  apply (put_assessments_not_found e id b f (JObj <$> recs) Hreq Hf).
  apply findIndex_from_records_none, Hno.
Qed.

(** C5: with no [assessments.json] on disk, GET answers 200 with the empty
    array, and creates no file. *)
Theorem get_missing_file_empty_array :
  get_assessments Missing = ({| status := 200; body := JArr [] |}, Missing).
Proof. reflexivity. Qed.

(** The server variant that sends the file itself answers 404 there. *)
Lemma sendfile_variant_missing_404 :
  status <$> sendfile_variant_guard Missing = Some 404%Z.
Proof. reflexivity. Qed.

(** Merging the same body over the record it already produced changes
    nothing but the date. *)
Lemma merged_again e1 e2 id old b :
  merged e2 id (Some (JObj (merged e1 id old b))) b =
  <["lastModified" := JStr (isoDate (new_Date e2 0))]> (merged e1 id old b).
Proof.
  apply map_eq. intros k.
  destruct (decide (k = "lastModified")) as [->|Hlm].
  { rewrite merged_lastModified. by rewrite lookup_insert_eq. }
  rewrite lookup_insert_ne by congruence.
  destruct (decide (k = "id")) as [->|Hid].
  { by rewrite !merged_id. }
  rewrite !merged_other by assumption. simpl.
  rewrite merged_other by assumption.
  destruct (b !! k); reflexivity.
Qed.

(** C6: the same update applied twice to an existing record succeeds both
    times, rewrites the same position of the collection, and the second
    stored record is the first one with its [lastModified] refreshed. *)
Theorem put_twice_same_record e1 e2 id b f (recs : list (gmap string json)) r0 :
  truthy (b !! "processName") = true ->
  truthy (b !! "status") = true ->
  stored f recs ->
  r0 ∈ recs ->
  r0 !! "id" = Some (JStr id) ->
  disk_write e1 = Written ->
  disk_write e2 = Written ->
  exists i rec1 rec2 f1 f2,
    put_assessments e1 id b f = ({| status := 200; body := JObj rec1 |}, f1) /\
    put_assessments e2 id b f1 = ({| status := 200; body := JObj rec2 |}, f2) /\
    i < length recs /\
    stored f1 (<[i := rec1]> recs) /\
    stored f2 (<[i := rec2]> recs) /\
    delete "lastModified" rec2 = delete "lastModified" rec1 /\
    rec2 !! "lastModified" = Some (JStr (isoDate (new_Date e2 0))).
Proof.
  intros Hp Hs Hf Hin Hid Hw1 Hw2.
  assert (Hreq : missing_required b = false) by (apply missing_required_false; auto).
  destruct (findIndex_from_records_some id recs r0 Hin Hid) as [i Hi].
  destruct (findIndex_from_some _ _ _ Hi) as [(m0 & Hm0 & _) _].
  assert (Hlen : i < length (JObj <$> recs)) by (eapply lookup_lt_Some; exact Hm0).
  set (l := JObj <$> recs) in *.
  set (rec1 := merged e1 id (l !! i) b).
  set (l1 := <[i := JObj rec1]> l).
  set (rec2 := merged e2 id (l1 !! i) b).
  exists i, rec1, rec2, (Holds (JArr l1)), (Holds (JArr (<[i := JObj rec2]> l1))).
  assert (Hl1 : l1 !! i = Some (JObj rec1)) by (apply list_lookup_insert_eq; exact Hlen).
  assert (Hrec2 : rec2 = <["lastModified" := JStr (isoDate (new_Date e2 0))]> rec1).
  { unfold rec2. rewrite Hl1. apply merged_again. }
  split; [apply put_assessments_updated; assumption|].
  split.
  { apply put_assessments_updated; try assumption; [reflexivity|].
    apply findIndex_from_insert; [exact Hi | apply merged_id]. }
  split; [unfold l in Hlen; rewrite length_fmap in Hlen; exact Hlen|].
  split; [unfold stored, l1, l; simpl; by rewrite list_fmap_insert|].
  split.
  { unfold stored, l1, l. simpl. rewrite list_insert_insert_eq.
    by rewrite list_fmap_insert. }
  split; [rewrite Hrec2; apply delete_insert_eq|].
  rewrite Hrec2. apply lookup_insert_eq.
Qed.

(** C9: a mutation that answers with its success status has left every
    element it does not target where it was.  After a creation the array is
    the old one with the new record at the end; after an update the array
    has the same length and every element that is not a record with the id
    of the path is unchanged at its position. *)
Theorem successful_mutation_frame e (mu : mutation) f r f' :
  apply_mutation e mu f = (r, f') ->
  status r = success_status mu ->
  exists l l',
    array_of f = Some l /\ array_of f' = Some l' /\
    match mu with
    | Create _ => exists rec, body r = JObj rec /\ l' = (l ++ [JObj rec])%list
    | Update id _ =>
        length l' = length l /\
        forall j a, l !! j = Some a -> ~ has_id id a -> l' !! j = Some a
    end.
Proof.
  destruct mu as [b|id b]; simpl; intros Hrun Hst.
  - destruct (post_assessments_201_inv _ _ _ _ _ Hrun Hst) as (Hreq & Hw & l & Hl).
    rewrite (post_assessments_created e b f l Hreq Hl Hw) in Hrun.
    injection Hrun as <- <-.
    exists l, (l ++ [JObj (stamped e b)])%list. repeat split; eauto.
  - destruct (put_assessments_200_inv _ _ _ _ _ _ Hrun Hst)
      as (Hreq & Hw & l & i & Hl & Hi).
    rewrite (put_assessments_updated e id b f l i Hreq Hl Hi Hw) in Hrun.
    injection Hrun as <- <-.
    exists l, (<[i := JObj (merged e id (l !! i) b)]> l).
    split; [exact Hl|]. split; [reflexivity|].
    split; [apply length_insert|].
    intros j a Hj Hno. destruct (decide (i = j)) as [->|Hne].
    + destruct (findIndex_from_some _ _ _ Hi) as [(m0 & Hm0 & Hid0) _].
      exfalso. apply Hno. exists m0. split; congruence.
    + rewrite list_lookup_insert_ne by assumption. exact Hj.
Qed.

(** C10: whenever POST answers 201, the record it returns and stores has
    the decimal timestamp of [Date.now()] as [id] and the two server dates,
    and nothing of the answer or of the file depends on what the request
    supplied for these three fields. *)
Theorem post_assigns_server_fields e b f r f' :
  post_assessments e b f = (r, f') ->
  status r = 201%Z ->
  (exists rec l,
     body r = JObj rec /\
     array_of f' = Some (l ++ [JObj rec])%list /\
     rec !! "id" = Some (JStr (pretty (date_now e))) /\
     rec !! "createdDate" = Some (JStr (isoDate (new_Date e 0))) /\
     rec !! "lastModified" = Some (JStr (isoDate (new_Date e 1)))) /\
  forall b',
    (forall k, k <> "id" -> k <> "createdDate" -> k <> "lastModified" ->
               b' !! k = b !! k) ->
    post_assessments e b' f = (r, f').
Proof.
  intros Hrun Hst.
  destruct (post_assessments_201_inv _ _ _ _ _ Hrun Hst) as (Hreq & Hw & l & Hl).
  rewrite (post_assessments_created e b f l Hreq Hl Hw) in Hrun.
  injection Hrun as <- <-. split.
  - exists (stamped e b), l. simpl.
    auto using stamped_id, stamped_createdDate, stamped_lastModified.
  - intros b' Hsame.
    assert (Hstamp : stamped e b' = stamped e b).
    { apply map_eq. intros k. unfold stamped.
      destruct (decide (k = "lastModified")) as [->|?]; [by rewrite !lookup_insert_eq|].
      rewrite !(lookup_insert_ne _ "lastModified") by congruence.
      destruct (decide (k = "createdDate")) as [->|?]; [by rewrite !lookup_insert_eq|].
      rewrite !(lookup_insert_ne _ "createdDate") by congruence.
      destruct (decide (k = "id")) as [->|?]; [by rewrite !lookup_insert_eq|].
      rewrite !(lookup_insert_ne _ "id") by congruence.
      apply Hsame; assumption. }
    assert (Hreq' : missing_required b' = false).
    { unfold missing_required in *. rewrite !Hsame by discriminate. exact Hreq. }
    rewrite (post_assessments_created e b' f l Hreq' Hl Hw), Hstamp. reflexivity.
Qed.

(** What an update does to the fields the handler means to keep: the [id]
    of the path is pinned and [lastModified] is today's date, but
    [createdDate] is the stored one only when the body has none. *)
Lemma put_assessments_fields e id b f l i :
  missing_required b = false ->
  array_of f = Some l ->
  findIndex_from id l = inr (Some i) ->
  disk_write e = Written ->
  exists rec f',
    put_assessments e id b f = ({| status := 200; body := JObj rec |}, f') /\
    rec !! "id" = Some (JStr id) /\
    rec !! "lastModified" = Some (JStr (isoDate (new_Date e 0))) /\
    rec !! "createdDate" =
      match b !! "createdDate" with
      | Some v => Some v
      | None => spread (l !! i) !! "createdDate"
      end.
Proof.
  intros Hreq Hl Hi Hw. eexists _, _.
  split; [apply put_assessments_updated; eassumption|].
  split; [apply merged_id|]. split; [apply merged_lastModified|].
  apply merged_other; discriminate.
Qed.

(** C2, at a request that supplies a creation date: the update answers 200
    and keeps the id, but the stored and returned [createdDate] is the one
    of the request body, not the one the record was created with. *)
Theorem put_takes_createdDate_from_body :
  Samples.stored_payroll !! "createdDate" = Some (JStr "2024-01-01") /\
  exists rec,
    put_assessments Samples.next_day "1" Samples.backdated Samples.two_records =
      ({| status := 200; body := JObj rec |},
       collection [rec; Samples.stored_audit]) /\
    rec !! "id" = Some (JStr "1") /\
    rec !! "lastModified" = Some (JStr "2023-11-15") /\
    rec !! "createdDate" = Some (JStr "1999-12-31").
Proof.
  split; [reflexivity|].
  eexists. split; [vm_compute; reflexivity|].
  repeat split; vm_compute; reflexivity.
Qed.

End Api.

(** ** Properties of the client table *)

Section Table.
Import Client.

Implicit Types (a : row) (h k kw : string).

Lemma append_cons (c : ascii) k h : String c k ++ h = String c (k ++ h).
Proof. reflexivity. Qed.

Lemma prefix_append k h :
  String.prefix k h = true <-> exists post, h = k ++ post.
Proof.
  revert h. induction k as [|c k IH]; intros h; simpl.
  - split; [intros _; exists h; reflexivity | destruct h; reflexivity].
  - destruct h as [|d h]; simpl.
    + split; [discriminate | intros [post Hp]; discriminate].
    + destruct (ascii_dec c d) as [->|Hne].
      * rewrite IH. split; intros [post Hp]; exists post;
          rewrite append_cons in *; congruence.
      * split; [discriminate | intros [post Hp]; rewrite append_cons in Hp; congruence].
Qed.

Lemma includes_nil k : includes "" k = String.prefix k "".
Proof. simpl. apply orb_false_r. Qed.

Lemma includes_cons (c : ascii) h k :
  includes (String c h) k = String.prefix k (String c h) || includes h k.
Proof. reflexivity. Qed.

(** [includes] decides occurrence. *)
Lemma includes_substring_of h k : includes h k = true <-> substring_of k h.
Proof.
  unfold substring_of. split.
  - induction h as [|c h IH].
    + rewrite includes_nil. intros Hp.
      apply prefix_append in Hp as [post Hp]. exists "", post. exact Hp.
    + rewrite includes_cons, orb_true_iff. intros [Hp|Hr].
      * apply prefix_append in Hp as [post Hp]. exists "", post. exact Hp.
      * destruct (IH Hr) as (pre & post & ->). exists (String c pre), post. reflexivity.
  - intros (pre & post & ->). induction pre as [|c pre IH].
    + assert (Hp : String.prefix k (k ++ post) = true)
        by (apply prefix_append; eauto).
      change ("" ++ k ++ post) with (k ++ post).
      destruct (k ++ post) as [|d rest].
      * rewrite includes_nil. exact Hp.
      * rewrite includes_cons, Hp. reflexivity.
    + rewrite append_cons, includes_cons, IH. apply orb_true_r.
Qed.

Lemma haystack_unfold a :
  haystack a =
    normalize (a !! "processName") ++ " | " ++
    normalize (a !! "content") ++ " | " ++
    normalize (a !! "location").
Proof. reflexivity. Qed.

Lemma matchesKeyword_spec a kw :
  matchesKeyword a kw = true <->
  normalize (Some kw) = "" \/ substring_of (normalize (Some kw)) (haystack a).
Proof.
  unfold matchesKeyword.
  destruct (String.eqb_spec (normalize (Some kw)) "") as [He|Hne].
  - split; auto.
  - rewrite includes_substring_of. split; [auto | intros [?|?]; [contradiction | assumption]].
Qed.

(** C7, as the filter is written: a row is kept exactly when the keyword,
    lowercased and trimmed, is empty or occurs in the three fields, each
    lowercased and trimmed (a missing field counting as empty) and joined
    by [" | "].  The empty keyword keeps every row, and on the rows Alpha
    and Beta the keyword [calgary] keeps exactly the first. *)
Theorem search_keeps_exactly (rows : list row) kw a :
  (In a (search kw rows) <->
   In a rows /\
   (normalize (Some kw) = "" \/
    substring_of (normalize (Some kw))
      (normalize (a !! "processName") ++ " | " ++
       normalize (a !! "content") ++ " | " ++
       normalize (a !! "location")))) /\
  search "" rows = rows /\
  search "calgary" [alpha; beta] = [alpha] /\
  search "" [alpha; beta] = [alpha; beta].
Proof.
  split; [|split; [|split]].
  - unfold search. rewrite filter_In, matchesKeyword_spec, haystack_unfold. reflexivity.
  - unfold search. induction rows as [|r rows IH]; [reflexivity|].
    simpl. rewrite IH. reflexivity.
  - vm_compute. reflexivity.
  - vm_compute. reflexivity.
Qed.

(** C7, as the specification words it, fails in both directions.  [ax]
    occurs in the plain concatenation [alphaxcalgary] of the fields of
    Alpha, across the end of the first field, yet the filter drops the row,
    because it searches the fields joined by [" | "].  A keyword of two
    spaces is not empty and occurs nowhere in Alpha, yet the filter keeps
    the row, because it trims the keyword first. *)
Lemma search_differs_from_wording :
  (spec_keeps alpha "ax" /\ search "ax" [alpha] = []) /\
  (~ spec_keeps alpha "  " /\ search "  " [alpha] = [alpha]).
Proof.
  split; split.
  - right. exists "alph", "calgary". vm_compute. reflexivity.
  - vm_compute. reflexivity.
  - intros [Hempty|Hsub]; [discriminate|].
    apply includes_substring_of in Hsub. vm_compute in Hsub. discriminate.
  - vm_compute. reflexivity.
Qed.

(** The attribute each button receives from the status: [disabled] or the
    empty text, and nothing else. *)
Lemma button_attributes_by_status a :
  (a !! "status" = Some "Approved" /\ editAttr a = "disabled" \/
   a !! "status" <> Some "Approved" /\ editAttr a = "") /\
  (a !! "status" = Some "Draft" /\ submitAttr a = "" \/
   a !! "status" <> Some "Draft" /\ submitAttr a = "disabled").
Proof.
  unfold editAttr, submitAttr. split; case_bool_decide; auto.
Qed.


End Table.

(** ** The theorems at the sample requests *)

Section Instances.
Import Samples.

Lemma post_created_then_listed_witness :
  truthy (payroll !! "processName") = true /\
  truthy (payroll !! "status") = true /\
  array_of two_records = Some [JObj stored_payroll; JObj stored_audit] /\
  disk_write evening = Written /\
  exists rec f',
    post_assessments evening payroll two_records =
      ({| status := 201; body := JObj rec |}, f') /\
    array_of f' = Some ([JObj stored_payroll; JObj stored_audit] ++ [JObj rec])%list /\
    has_id "1700000000000" (JObj rec) /\
    exists arr,
      get_assessments f' = ({| status := 200; body := JArr arr |}, f') /\
      In (JObj rec) arr.
Proof.
  split; [reflexivity|]. split; [reflexivity|]. split; [reflexivity|].
  split; [reflexivity|].
  apply (post_created_then_listed evening payroll two_records
           [JObj stored_payroll; JObj stored_audit]); reflexivity.
Defined.

Lemma post_missing_field_rejected_witness :
  (truthy (no_status !! "processName") = false \/
   truthy (no_status !! "status") = false) /\
  exists r, post_assessments evening no_status two_records = (r, two_records) /\
            status r = 400%Z.
Proof.
  split; [right; reflexivity|].
  apply (post_missing_field_rejected evening no_status two_records).
  right. reflexivity.
Defined.

Lemma put_unknown_id_not_found_witness :
  truthy (payroll_review !! "processName") = true /\
  truthy (payroll_review !! "status") = true /\
  stored two_records [stored_payroll; stored_audit] /\
  Forall (fun r => r !! "id" <> Some (JStr "3")) [stored_payroll; stored_audit] /\
  exists r, put_assessments evening "3" payroll_review two_records = (r, two_records) /\
            status r = 404%Z.
Proof.
  assert (Hno : Forall (fun r : gmap string json => r !! "id" <> Some (JStr "3"))
                  [stored_payroll; stored_audit]).
  { repeat constructor; vm_compute; discriminate. }
  split; [reflexivity|]. split; [reflexivity|]. split; [reflexivity|].
  split; [exact Hno|].
  apply (put_unknown_id_not_found evening "3" payroll_review two_records
           [stored_payroll; stored_audit]); [reflexivity | reflexivity | reflexivity | exact Hno].
Defined.

Lemma put_twice_same_record_witness :
  truthy (payroll_review !! "processName") = true /\
  truthy (payroll_review !! "status") = true /\
  stored two_records [stored_payroll; stored_audit] /\
  stored_payroll ∈ [stored_payroll; stored_audit] /\
  stored_payroll !! "id" = Some (JStr "1") /\
  disk_write evening = Written /\
  disk_write next_day = Written /\
  exists i rec1 rec2 f1 f2,
    put_assessments evening "1" payroll_review two_records =
      ({| status := 200; body := JObj rec1 |}, f1) /\
    put_assessments next_day "1" payroll_review f1 =
      ({| status := 200; body := JObj rec2 |}, f2) /\
    i < length [stored_payroll; stored_audit] /\
    stored f1 (<[i := rec1]> [stored_payroll; stored_audit]) /\
    stored f2 (<[i := rec2]> [stored_payroll; stored_audit]) /\
    delete "lastModified" rec2 = delete "lastModified" rec1 /\
    rec2 !! "lastModified" = Some (JStr (isoDate (new_Date next_day 0))).
Proof.
  assert (Hin : stored_payroll ∈ [stored_payroll; stored_audit]) by apply list_elem_of_here.
  split; [reflexivity|]. split; [reflexivity|]. split; [reflexivity|].
  split; [exact Hin|]. split; [reflexivity|]. split; [reflexivity|].
  split; [reflexivity|].
  apply (put_twice_same_record evening next_day "1" payroll_review two_records
           [stored_payroll; stored_audit] stored_payroll);
    [reflexivity | reflexivity | reflexivity | exact Hin | reflexivity
    | reflexivity | reflexivity].
Defined.

Lemma successful_mutation_frame_witness :
  let run := apply_mutation evening (Update "1" payroll_review) two_records in
  status run.1 = success_status (Update "1" payroll_review) /\
  exists l l',
    array_of two_records = Some l /\ array_of run.2 = Some l' /\
    length l' = length l /\
    forall j a, l !! j = Some a -> ~ has_id "1" a -> l' !! j = Some a.
Proof.
  intros run. split; [vm_compute; reflexivity|].
  apply (successful_mutation_frame evening (Update "1" payroll_review) two_records
           run.1 run.2 (surjective_pairing run)).
  vm_compute. reflexivity.
Defined.

Lemma post_assigns_server_fields_witness :
  let run := post_assessments evening forged Missing in
  status run.1 = 201%Z /\
  (exists rec l,
     body run.1 = JObj rec /\
     array_of run.2 = Some (l ++ [JObj rec])%list /\
     rec !! "id" = Some (JStr "1700000000000") /\
     rec !! "createdDate" = Some (JStr "2023-11-14") /\
     rec !! "lastModified" = Some (JStr "2023-11-14")) /\
  forall b',
    (forall k, k <> "id" -> k <> "createdDate" -> k <> "lastModified" ->
               b' !! k = forged !! k) ->
    post_assessments evening b' Missing = (run.1, run.2).
Proof.
  intros run. split; [vm_compute; reflexivity|].
  apply (post_assigns_server_fields evening forged Missing run.1 run.2
           (surjective_pairing run)).
  vm_compute. reflexivity.
Defined.

End Instances.

(** ** Error paths and composition of the handlers *)

#[local] Set Warnings "-clear-no-such-hyp".

Section Handlers.
Import Routes.

Implicit Types (e : env) (f : file) (b m : gmap string json) (l : list json)
  (recs : list (gmap string json)).

(** With a body that passes the guard, the handlers stop at the first step
    that throws, before any write. *)
Lemma post_assessments_no_array e b f :
  missing_required b = false ->
  array_of f = None ->
  post_assessments e b f =
    ({| status := 500; body := error_body "Failed to create assessment" |}, f).
Proof.
  intros Hreq Hf. unfold post_assessments, try_catch, bind, readJsonFile.
  rewrite Hreq. destruct f as [|v|]; [discriminate| |reflexivity].
  destruct v; try reflexivity. discriminate.
Qed.

Lemma put_assessments_no_array e id b f :
  missing_required b = false ->
  array_of f = None ->
  put_assessments e id b f =
    ({| status := 500; body := error_body "Failed to update assessment" |}, f).
Proof.
  intros Hreq Hf. unfold put_assessments, try_catch, bind, readJsonFile.
  rewrite Hreq. destruct f as [|v|]; [discriminate| |reflexivity].
  destruct v; try reflexivity. discriminate.
Qed.

Lemma put_assessments_throws e id b f l ex :
  missing_required b = false ->
  array_of f = Some l ->
  findIndex_from id l = inl ex ->
  put_assessments e id b f =
    ({| status := 500; body := error_body "Failed to update assessment" |}, f).
Proof.
  intros Hreq Hf Hi. unfold put_assessments, try_catch, bind.
  rewrite Hreq, (array_of_read _ _ Hf). simpl. rewrite Hi. reflexivity.
Qed.

(** The callback throws on the first [null] it meets before a match. *)
Lemma findIndex_from_null id (pre post : list json) :
  Forall (fun a => ~ has_id id a) pre ->
  findIndex_from id (pre ++ JNull :: post) = inl TypeError.
Proof.
  induction 1 as [|a pre Ha _ IH]; [reflexivity|].
  change ((a :: pre) ++ JNull :: post)%list with (a :: (pre ++ JNull :: post))%list.
  cbn [findIndex_from]. destruct (read_id a) as [ex|v] eqn:Hr.
  - destruct a; simpl in Hr; try discriminate. congruence.
  - destruct (strict_eq_str v id) eqn:E.
    + apply (callback_true id a v Hr) in E. contradiction.
    + rewrite IH. reflexivity.
Qed.

(** The index found in a collection of records is that of the first record
    with the id. *)
Lemma findIndex_from_records_first id recs i old :
  recs !! i = Some old ->
  old !! "id" = Some (JStr id) ->
  (forall j r, j < i -> recs !! j = Some r -> r !! "id" <> Some (JStr id)) ->
  findIndex_from id (JObj <$> recs) = inr (Some i).
Proof.
  revert i. induction recs as [|r recs IH]; intros i Hi Hid Hfirst; [discriminate|].
  rewrite fmap_cons, findIndex_from_cons_record.
  destruct i as [|i]; simpl in Hi.
  - injection Hi as ->. apply strict_eq_str_true in Hid. rewrite Hid. reflexivity.
  - destruct (strict_eq_str (r !! "id") id) eqn:E.
    + apply strict_eq_str_true in E. exfalso.
      apply (Hfirst 0 r); [lia | reflexivity | exact E].
    + rewrite (IH i Hi Hid); [reflexivity|].
      intros j r' Hj Hr'. apply (Hfirst (S j) r'); [lia | exact Hr'].
Qed.

(** Every outcome of POST and of PUT on a disk that takes writes: the file
    is as before, or the answer is the success status. *)
Lemma post_assessments_outcomes e b f r f' :
  disk_write e = Written ->
  post_assessments e b f = (r, f') ->
  f' = f \/ status r = 201%Z.
Proof.
  intros Hw. destruct (missing_required b) eqn:Hreq.
  - unfold post_assessments, try_catch. rewrite Hreq. simpl.
    intros [= <- <-]. left. reflexivity.
  - destruct (array_of f) as [l|] eqn:Hf.
    + rewrite (post_assessments_created e b f l Hreq Hf Hw).
      intros [= <- <-]. right. reflexivity.
    + rewrite (post_assessments_no_array e b f Hreq Hf).
      intros [= <- <-]. left. reflexivity.
Qed.

Lemma put_assessments_outcomes e id b f r f' :
  disk_write e = Written ->
  put_assessments e id b f = (r, f') ->
  f' = f \/ status r = 200%Z.
Proof.
  intros Hw. destruct (missing_required b) eqn:Hreq.
  - unfold put_assessments, try_catch. rewrite Hreq. simpl.
    intros [= <- <-]. left. reflexivity.
  - destruct (array_of f) as [l|] eqn:Hf.
    + destruct (findIndex_from id l) as [ex|[i|]] eqn:Hi.
      * rewrite (put_assessments_throws e id b f l ex Hreq Hf Hi).
        intros [= <- <-]. left. reflexivity.
      * rewrite (put_assessments_updated e id b f l i Hreq Hf Hi Hw).
        intros [= <- <-]. right. reflexivity.
      * rewrite (put_assessments_not_found e id b f l Hreq Hf Hi).
        intros [= <- <-]. left. reflexivity.
    + rewrite (put_assessments_no_array e id b f Hreq Hf).
      intros [= <- <-]. left. reflexivity.
Qed.

Lemma get_assessments_file f : (get_assessments f).2 = f.
Proof. destruct f; reflexivity. Qed.

Lemma get_rfis_file f : (get_rfis f).2 = f.
Proof. destruct f; reflexivity. Qed.

(** X1: no request changes [rfis.json], and the two GET routes change nothing
    on disk, whatever the files hold and whatever a write would do. *)
Theorem serve_reads_do_not_write e (req : request) (d : disk) :
  rfis_json (serve e req d).2 = rfis_json d /\
  match req with
  | GetAssessments | GetRfis => (serve e req d).2 = d
  | _ => True
  end.
Proof.
  destruct d as [fa fr]. destruct req as [|b|id b|]; simpl; unfold on_assessments, on_rfis; simpl.
  - pose proof (get_assessments_file fa) as H.
    destruct (get_assessments fa) as [r f']. simpl in *. subst. auto.
  - destruct (post_assessments e b fa). auto.
  - destruct (put_assessments e id b fa). auto.
  - pose proof (get_rfis_file fr) as H.
    destruct (get_rfis fr) as [r f']. simpl in *. subst. auto.
Qed.

(** X2: on a disk that takes writes, a request changes the disk only when it is
    a POST answered 201 or a PUT answered 200: every 400, 404 and 500 leaves
    both files as they were. *)
Theorem serve_changes_only_on_success e (req : request) (d d' : disk) r :
  disk_write e = Written ->
  serve e req d = (r, d') ->
  d' = d \/
  (exists b, req = PostAssessments b /\ status r = 201%Z) \/
  (exists id b, req = PutAssessments id b /\ status r = 200%Z).
Proof.
  intros Hw. destruct d as [fa fr].
  destruct req as [|b|id b|]; simpl; unfold on_assessments, on_rfis; simpl.
  - pose proof (get_assessments_file fa) as H.
    destruct (get_assessments fa) as [r0 f']. simpl in H. subst f'.
    intros [= <- <-]. left. reflexivity.
  - destruct (post_assessments e b fa) as [r0 f'] eqn:Hrun.
    intros [= <- <-].
    destruct (post_assessments_outcomes e b fa r0 f' Hw Hrun) as [->|Hst]; eauto.
  - destruct (put_assessments e id b fa) as [r0 f'] eqn:Hrun.
    intros [= <- <-].
    destruct (put_assessments_outcomes e id b fa r0 f' Hw Hrun) as [->|Hst]; eauto 6.
  - pose proof (get_rfis_file fr) as H.
    destruct (get_rfis fr) as [r0 f']. simpl in H. subst f'.
    intros [= <- <-]. left. reflexivity.
Qed.

(** X3: the guard of PUT runs before the file is read: a body in which
    [processName] or [status] is falsy is answered 400 for every id, known
    or not, and every state of the file, which is left as it was. *)
Theorem put_missing_field_rejected e id b f :
  truthy (b !! "processName") = false \/ truthy (b !! "status") = false ->
  put_assessments e id b f =
    ({| status := 400; body := error_body "Process Name and Status are required." |}, f).
Proof.
  intros H.
  assert (Hreq : missing_required b = true).
  { unfold missing_required. destruct H as [-> | ->]; [reflexivity|].
    apply orb_true_r. }
  unfold put_assessments, try_catch. rewrite Hreq. reflexivity.
Qed.

(** X4: when the file cannot be read or parsed, or parses to something that is
    not an array, a POST or PUT with a valid body is answered 500 and the
    file is not rewritten. *)
Theorem mutation_without_array_fails e (mu : mutation) f :
  (match mu with Create b | Update _ b => missing_required b = false end) ->
  array_of f = None ->
  exists r, apply_mutation e mu f = (r, f) /\ status r = 500%Z.
Proof.
  intros Hreq Hf. destruct mu as [b|id b]; simpl.
  - rewrite (post_assessments_no_array e b f Hreq Hf). eauto.
  - rewrite (put_assessments_no_array e id b f Hreq Hf). eauto.
Qed.

(** X5: a [null] entry in the array, with no record of the id before it, makes
    the update answer 500, where an array of records would give 200 or 404;
    the file is not rewritten. *)
Theorem put_null_entry_fails e id b f (pre post : list json) :
  missing_required b = false ->
  array_of f = Some (pre ++ JNull :: post)%list ->
  Forall (fun a => ~ has_id id a) pre ->
  put_assessments e id b f =
    ({| status := 500; body := error_body "Failed to update assessment" |}, f).
Proof.
  intros Hreq Hf Hpre.
  apply (put_assessments_throws e id b f _ TypeError Hreq Hf).
  apply findIndex_from_null, Hpre.
Qed.

(** X6: an update rewrites the first record that carries the id and nothing
    else: records further down with the same id stay as they are. *)
Theorem put_replaces_first_match e id b f recs i old :
  missing_required b = false ->
  stored f recs ->
  recs !! i = Some old ->
  old !! "id" = Some (JStr id) ->
  (forall j r, j < i -> recs !! j = Some r -> r !! "id" <> Some (JStr id)) ->
  disk_write e = Written ->
  exists rec,
    put_assessments e id b f =
      ({| status := 200; body := JObj rec |}, collection (<[i := rec]> recs)) /\
    forall j, j <> i -> <[i := rec]> recs !! j = recs !! j.
Proof.
  intros Hreq Hf Hi Hid Hfirst Hw.
  pose proof (findIndex_from_records_first id recs i old Hi Hid Hfirst) as Hfind.
  exists (merged e id ((JObj <$> recs) !! i) b). split.
  - rewrite (put_assessments_updated e id b f _ i Hreq Hf Hfind Hw).
    unfold collection. by rewrite list_fmap_insert.
  - intros j Hj. apply list_lookup_insert_ne. congruence.
Qed.

(** X7: the record an update returns has the fields of the body and of the
    stored record together, and no others but [lastModified].  Apart from
    [id] and [lastModified], a field the body has with a value without
    numbers takes that value, a field only the stored record has with such
    a value keeps it, and a field neither has stays absent. *)
Theorem put_merges_fields e id b f recs i old :
  missing_required b = false ->
  stored f recs ->
  recs !! i = Some old ->
  old !! "id" = Some (JStr id) ->
  (forall j r, j < i -> recs !! j = Some r -> r !! "id" <> Some (JStr id)) ->
  disk_write e = Written ->
  exists rec f',
    put_assessments e id b f = ({| status := 200; body := JObj rec |}, f') /\
    dom rec = dom b ∪ dom old ∪ {[ "lastModified" ]} /\
    forall k, k <> "id" -> k <> "lastModified" ->
      (b !! k = None -> old !! k = None -> rec !! k = None) /\
      forall v, Values.number_free v ->
        (b !! k = Some v -> rec !! k = Some v) /\
        (b !! k = None -> old !! k = Some v -> rec !! k = Some v).
Proof.
  intros Hreq Hf Hi Hid Hfirst Hw.
  pose proof (findIndex_from_records_first id recs i old Hi Hid Hfirst) as Hfind.
  assert (Hold : (JObj <$> recs) !! i = Some (JObj old))
    by (rewrite list_lookup_fmap, Hi; reflexivity).
  exists (merged e id (Some (JObj old)) b). eexists. split; [|split].
  - rewrite (put_assessments_updated e id b f _ i Hreq Hf Hfind Hw), Hold. reflexivity.
  - unfold merged. simpl. rewrite !dom_insert_L, dom_union_L.
    assert ("id" ∈ dom old) by (apply elem_of_dom; eauto).
    set_solver.
  - intros k Hk1 Hk2. rewrite (merged_other e id _ b k Hk1 Hk2). simpl.
    split; [intros -> ->; reflexivity|].
    intros v _. split; [intros ->; reflexivity | intros -> ->; reflexivity].
Qed.

(** X8: what an update keeps whatever the body says: the record it returns has
    the id of the path, even when the body carries another, and today's
    date as [lastModified]; and it has the creation date of the stored
    record whenever the body carries none. *)
Theorem put_keeps_id_and_creation_date e id b f recs i old :
  missing_required b = false ->
  stored f recs ->
  recs !! i = Some old ->
  old !! "id" = Some (JStr id) ->
  (forall j r, j < i -> recs !! j = Some r -> r !! "id" <> Some (JStr id)) ->
  disk_write e = Written ->
  exists rec f',
    put_assessments e id b f = ({| status := 200; body := JObj rec |}, f') /\
    rec !! "id" = Some (JStr id) /\
    rec !! "lastModified" = Some (JStr (isoDate (new_Date e 0))) /\
    (b !! "createdDate" = None -> rec !! "createdDate" = old !! "createdDate").
Proof.
  intros Hreq Hf Hi Hid Hfirst Hw.
  pose proof (findIndex_from_records_first id recs i old Hi Hid Hfirst) as Hfind.
  assert (Hold : (JObj <$> recs) !! i = Some (JObj old))
    by (rewrite list_lookup_fmap, Hi; reflexivity).
  exists (merged e id (Some (JObj old)) b). eexists. split; [|split; [|split]].
  - rewrite (put_assessments_updated e id b f _ i Hreq Hf Hfind Hw), Hold. reflexivity.
  - apply merged_id.
  - apply merged_lastModified.
  - intros Hnone. rewrite merged_other by discriminate. rewrite Hnone. reflexivity.
Qed.

(** X9: round trip: after a creation, the last element of the array GET
    returns is a record with exactly the fields of the request body and the
    three server fields, and every other field that the body has with a
    value without numbers has that value. *)
Theorem post_get_round_trip e b f l :
  missing_required b = false ->
  array_of f = Some l ->
  disk_write e = Written ->
  exists rec arr,
    body (get_assessments (post_assessments e b f).2).1 = JArr arr /\
    last arr = Some (JObj rec) /\
    dom rec = dom b ∪ {[ "id"; "createdDate"; "lastModified" ]} /\
    forall k v, k <> "id" -> k <> "createdDate" -> k <> "lastModified" ->
      Values.number_free v -> b !! k = Some v -> rec !! k = Some v.
Proof.
  intros Hreq Hf Hw. exists (stamped e b), (l ++ [JObj (stamped e b)])%list.
  rewrite (post_assessments_created e b f l Hreq Hf Hw). simpl.
  split; [reflexivity|]. split; [apply last_snoc|]. split.
  - unfold stamped. rewrite !dom_insert_L. set_solver.
  - intros k v ? ? ? _ Hb. rewrite stamped_other by assumption. exact Hb.
Qed.

(** X10: two creations in a row give their records the same id exactly when
    [Date.now()] returned the same millisecond for both: nothing else makes
    ids distinct. *)
Theorem post_ids_collide_iff_same_millisecond e1 e2 b1 b2 f l :
  missing_required b1 = false ->
  missing_required b2 = false ->
  array_of f = Some l ->
  disk_write e1 = Written ->
  disk_write e2 = Written ->
  exists rec1 rec2 f1 f2,
    post_assessments e1 b1 f = ({| status := 201; body := JObj rec1 |}, f1) /\
    post_assessments e2 b2 f1 = ({| status := 201; body := JObj rec2 |}, f2) /\
    array_of f2 = Some (l ++ [JObj rec1; JObj rec2])%list /\
    (rec1 !! "id" = rec2 !! "id" <-> date_now e1 = date_now e2).
Proof.
  intros Hreq1 Hreq2 Hf Hw1 Hw2.
  exists (stamped e1 b1), (stamped e2 b2). eexists _, _.
  split; [apply (post_assessments_created e1 b1 f l Hreq1 Hf Hw1)|].
  split; [apply (post_assessments_created e2 b2 _ (l ++ [JObj (stamped e1 b1)])%list Hreq2);
          [reflexivity | exact Hw2]|].
  split; [simpl; by rewrite <- app_assoc|].
  rewrite !stamped_id. split.
  - intros [= H]. apply (inj pretty) in H. exact H.
  - intros ->. reflexivity.
Qed.

(** X11: a record just created can be updated through the id the creation
    returned, when no older record has that id: the update answers 200 for
    the same position, keeps the id, takes [status] from the new body, and
    keeps the creation date unless the new body carries one. *)
Theorem post_then_put_by_returned_id e1 e2 b1 b2 f recs :
  missing_required b1 = false ->
  missing_required b2 = false ->
  stored f recs ->
  Forall (fun r => r !! "id" <> Some (JStr (pretty (date_now e1)))) recs ->
  disk_write e1 = Written ->
  disk_write e2 = Written ->
  exists rec rec' f1 f2,
    post_assessments e1 b1 f = ({| status := 201; body := JObj rec |}, f1) /\
    put_assessments e2 (pretty (date_now e1)) b2 f1 =
      ({| status := 200; body := JObj rec' |}, f2) /\
    stored f2 (recs ++ [rec'])%list /\
    rec' !! "id" = rec !! "id" /\
    rec' !! "status" = b2 !! "status" /\
    (b2 !! "createdDate" = None -> rec' !! "createdDate" = rec !! "createdDate").
Proof.
  intros Hreq1 Hreq2 Hf Hfresh Hw1 Hw2.
  set (id := pretty (date_now e1)).
  set (rec := stamped e1 b1).
  assert (Hrec : (recs ++ [rec])%list !! length recs = Some rec).
  { rewrite lookup_app_r by lia. by rewrite Nat.sub_diag. }
  assert (Hfirst : forall j r, j < length recs -> (recs ++ [rec])%list !! j = Some r ->
                               r !! "id" <> Some (JStr id)).
  { intros j r Hj Hr. rewrite lookup_app_l in Hr by exact Hj.
    rewrite Forall_forall in Hfresh. apply Hfresh.
    eapply list_elem_of_lookup_2. exact Hr. }
  pose proof (findIndex_from_records_first id _ _ rec Hrec (stamped_id e1 b1) Hfirst)
    as Hfind.
  assert (Hold : (JObj <$> (recs ++ [rec])%list) !! length recs = Some (JObj rec))
    by (rewrite list_lookup_fmap, Hrec; reflexivity).
  set (rec' := merged e2 id (Some (JObj rec)) b2).
  exists rec, rec', (collection (recs ++ [rec])%list), (collection (recs ++ [rec'])%list).
  split.
  { rewrite (post_assessments_created e1 b1 f _ Hreq1 Hf Hw1).
    unfold collection. by rewrite fmap_app. }
  split.
  { rewrite (put_assessments_updated e2 id b2 (collection (recs ++ [rec])%list)
               (JObj <$> (recs ++ [rec])%list) (length recs) Hreq2 eq_refl Hfind Hw2).
    rewrite Hold. fold rec'. unfold collection.
    rewrite <- list_fmap_insert, insert_app_r_alt by lia.
    rewrite Nat.sub_diag. reflexivity. }
  split; [reflexivity|].
  split; [unfold rec', rec; by rewrite merged_id, stamped_id|].
  split.
  - unfold rec'. rewrite merged_other by discriminate.
    apply missing_required_false in Hreq2 as [_ Hst].
    destruct (b2 !! "status"); [reflexivity | discriminate].
  - intros Hnone. unfold rec'. rewrite merged_other by discriminate.
    rewrite Hnone. reflexivity.
Qed.

End Handlers.

(** ** Normalisation and the keyword filter *)

Section Keyword.
Import Client.

Implicit Types (a : row) (c : ascii) (s t h k kw : string).

Lemma lower_char_idem c : lower_char (lower_char c) = lower_char c.
Proof. destruct c as [[] [] [] [] [] [] [] []]; reflexivity. Qed.

(** Lowercasing never turns a character into white space or back. *)
Lemma is_space_lower_char c : is_space (lower_char c) = is_space c.
Proof. destruct c as [[] [] [] [] [] [] [] []]; reflexivity. Qed.

Lemma toLowerCase_idem s : toLowerCase (toLowerCase s) = toLowerCase s.
Proof. induction s as [|c s IH]; simpl; [reflexivity|]. by rewrite lower_char_idem, IH. Qed.

Lemma toLowerCase_empty s : String.eqb (toLowerCase s) "" = String.eqb s "".
Proof. destruct s; reflexivity. Qed.

Lemma trimStart_toLowerCase s : trimStart (toLowerCase s) = toLowerCase (trimStart s).
Proof.
  induction s as [|c s IH]; simpl; [reflexivity|].
  rewrite is_space_lower_char. destruct (is_space c); [exact IH | reflexivity].
Qed.

Lemma trimEnd_toLowerCase s : trimEnd (toLowerCase s) = toLowerCase (trimEnd s).
Proof.
  induction s as [|c s IH]; simpl; [reflexivity|].
  rewrite is_space_lower_char, IH, toLowerCase_empty.
  destruct (is_space c && String.eqb (trimEnd s) ""); reflexivity.
Qed.

Lemma trim_toLowerCase s : trim (toLowerCase s) = toLowerCase (trim s).
Proof. unfold trim. by rewrite trimStart_toLowerCase, trimEnd_toLowerCase. Qed.

(** What is left by [trimStart] is empty or begins with a character that is
    not white space. *)
Lemma trimStart_head s :
  trimStart s = "" \/ exists c t, trimStart s = String c t /\ is_space c = false.
Proof.
  induction s as [|c s IH]; simpl; [auto|].
  destruct (is_space c) eqn:E; [exact IH | eauto].
Qed.

Lemma trimEnd_cons c t :
  is_space c = false -> trimEnd (String c t) = String c (trimEnd t).
Proof. intros E. simpl. rewrite E. reflexivity. Qed.

Lemma trimStart_cons c t :
  is_space c = false -> trimStart (String c t) = String c t.
Proof. intros E. simpl. rewrite E. reflexivity. Qed.

Lemma trimEnd_idem s : trimEnd (trimEnd s) = trimEnd s.
Proof.
  induction s as [|c s IH]; simpl; [reflexivity|].
  destruct (is_space c && String.eqb (trimEnd s) "") eqn:E; [reflexivity|].
  simpl. rewrite IH, E. reflexivity.
Qed.

Lemma trim_idem s : trim (trim s) = trim s.
Proof.
  unfold trim. destruct (trimStart_head s) as [->|(c & t & -> & Hc)]; [reflexivity|].
  rewrite (trimEnd_cons c t Hc), (trimStart_cons c _ Hc), (trimEnd_cons c _ Hc).
  by rewrite trimEnd_idem.
Qed.

(** X12: [normalize] applied to its own result changes nothing: a keyword or a
    field that is already lowercase and trimmed is searched as it is. *)
Theorem normalize_idempotent (o : option string) :
  normalize (Some (normalize o)) = normalize o.
Proof.
  unfold normalize. simpl.
  by rewrite <- trim_toLowerCase, trim_idem, toLowerCase_idem.
Qed.

(** X13: the filter cannot tell apart two keywords that differ only in the case
    of their letters, or only in white space around them. *)
Theorem search_ignores_case_and_padding (rows : list row) kw kw' :
  toLowerCase kw = toLowerCase kw' \/ trim kw = trim kw' ->
  search kw rows = search kw' rows.
Proof.
  intros H.
  assert (Hn : normalize (Some kw) = normalize (Some kw')).
  { unfold normalize. simpl. destruct H as [H|H]; [by rewrite H|].
    by rewrite !trim_toLowerCase, H. }
  unfold search, matchesKeyword. rewrite Hn. reflexivity.
Qed.

Lemma append_assoc_s s t h : (s ++ t) ++ h = s ++ t ++ h.
Proof. induction s as [|c s IH]; [reflexivity|]. by rewrite !append_cons, IH. Qed.

Lemma append_empty_r s : s ++ "" = s.
Proof. induction s as [|c s IH]; [reflexivity|]. by rewrite append_cons, IH. Qed.

Lemma substring_of_trans k t h :
  substring_of k t -> substring_of t h -> substring_of k h.
Proof.
  intros (p1 & q1 & ->) (p2 & q2 & ->).
  exists (p2 ++ p1), (q1 ++ q2). by rewrite !append_assoc_s.
Qed.

Lemma substring_of_empty k : substring_of k "" -> k = "".
Proof.
  intros (pre & post & H). destruct pre; [|discriminate].
  destruct k; [reflexivity | discriminate].
Qed.

(** X14: typing more narrows the result: every row kept for a keyword is kept
    for each keyword whose normal form occurs in that of the first. *)
Theorem search_narrows (rows : list row) kw kw' a :
  substring_of (normalize (Some kw')) (normalize (Some kw)) ->
  In a (search kw rows) -> In a (search kw' rows).
Proof.
  intros Hsub. unfold search. rewrite !filter_In, !matchesKeyword_spec.
  intros [Hin [Hempty|Hocc]]; split; try exact Hin.
  - left. rewrite Hempty in Hsub. by apply substring_of_empty.
  - right. by apply (substring_of_trans _ _ _ Hsub).
Qed.

Lemma field_in_haystack a fld :
  In fld ["processName"; "content"; "location"] ->
  substring_of (normalize (a !! fld)) (haystack a).
Proof.
  rewrite haystack_unfold. intros [<-|[<-|[<-|[]]]].
  - exists "", (" | " ++ normalize (a !! "content") ++ " | " ++ normalize (a !! "location")).
    reflexivity.
  - exists (normalize (a !! "processName") ++ " | "), (" | " ++ normalize (a !! "location")).
    by rewrite !append_assoc_s.
  - exists (normalize (a !! "processName") ++ " | " ++ normalize (a !! "content") ++ " | "), "".
    by rewrite !append_assoc_s, append_empty_r.
Qed.

(** X15: a keyword whose normal form occurs in the normal form of the process
    name, the content or the location of a row keeps that row: typing a
    field, or a piece of it, in any case finds the record. *)
Theorem field_occurrence_matches a kw fld :
  In fld ["processName"; "content"; "location"] ->
  substring_of (normalize (Some kw)) (normalize (a !! fld)) ->
  matchesKeyword a kw = true.
Proof.
  intros Hfld Hocc. apply matchesKeyword_spec. right.
  apply (substring_of_trans _ _ _ Hocc), field_in_haystack, Hfld.
Qed.

(** X17: the separator itself is searchable: the keyword [|] keeps every row,
    whatever its fields hold. *)
Theorem bar_keeps_every_row (rows : list row) : search "|" rows = rows.
Proof.
  unfold search. induction rows as [|a rows IH]; [reflexivity|].
  simpl. rewrite IH.
  assert (H : matchesKeyword a "|" = true); [|by rewrite H].
  apply matchesKeyword_spec. right. rewrite haystack_unfold.
  exists (normalize (a !! "processName") ++ " "),
         (" " ++ normalize (a !! "content") ++ " | " ++ normalize (a !! "location")).
  by rewrite !append_assoc_s.
Qed.

(** *** Occurrences, on lists of characters *)

Local Abbreviation chars := list_ascii_of_string.
Local Abbreviation occurs k h := (exists pre post : list ascii, h = (pre ++ k ++ post)%list).

Lemma chars_append s t : chars (s ++ t) = (chars s ++ chars t)%list.
Proof.
  induction s as [|c s IH]; [reflexivity|].
  rewrite append_cons. simpl. by rewrite IH.
Qed.

Lemma chars_inj s t : chars s = chars t -> s = t.
Proof.
  intros H. rewrite <- (string_of_list_ascii_of_string s),
    <- (string_of_list_ascii_of_string t). by rewrite H.
Qed.

Lemma substring_of_chars k h : substring_of k h <-> occurs (chars k) (chars h).
Proof.
  split.
  - intros (pre & post & ->). exists (chars pre), (chars post).
    by rewrite !chars_append.
  - intros (pre & post & H).
    exists (string_of_list_ascii pre), (string_of_list_ascii post).
    apply chars_inj. by rewrite !chars_append, !list_ascii_of_string_of_list_ascii.
Qed.

(** An occurrence in [x ++ c :: y] of a list without [c] lies in [x] or in
    [y]. *)
Lemma occurs_split (c : ascii) (x y k : list ascii) :
  ~ In c k -> occurs k (x ++ c :: y)%list -> occurs k x \/ occurs k y.
Proof.
  intros Hc (pre & post & H).
  apply app_eq_app in H as [l [[-> H]|[-> H]]].
  - apply app_eq_app in H as [l2 [[-> H]|[-> H]]].
    + destruct l2 as [|d l2]; simpl in H.
      * left. exists pre, []. by rewrite !app_nil_r.
      * injection H as <- _. exfalso. apply Hc, in_or_app. right. left. reflexivity.
    + left. exists pre, l2. reflexivity.
  - destruct l as [|d l]; simpl in H.
    + destruct k as [|d k]; simpl in H.
      * left. exists x, []. by rewrite !app_nil_r.
      * injection H as <- _. exfalso. apply Hc. left. reflexivity.
    + injection H as _ ->. right. exists l, post. reflexivity.
Qed.

(** An occurrence of a list that does not begin with [c] in [c :: x] lies
    in [x]; the same at the other end. *)
Lemma occurs_after (c d : ascii) (x k : list ascii) :
  c <> d -> occurs (d :: k) (c :: x) -> occurs (d :: k) x.
Proof.
  intros Hne (pre & post & H). destruct pre as [|e pre]; simpl in H.
  - injection H as -> _. contradiction.
  - injection H as _ ->. eauto.
Qed.

Lemma occurs_before (c d : ascii) (x k : list ascii) :
  c <> d -> occurs (k ++ [d])%list (x ++ [c])%list -> occurs (k ++ [d])%list x.
Proof.
  intros Hne (pre & post & H).
  induction post as [|e post' _] using rev_ind.
  - rewrite app_nil_r, app_assoc in H. apply app_inj_tail in H as [_ ->]. contradiction.
  - rewrite !app_assoc in H. apply app_inj_tail in H as [-> _].
    exists pre, post'. by rewrite <- !app_assoc.
Qed.

(** What is left by [trimEnd] is empty or ends with a character that is not
    white space. *)
Lemma trimEnd_last s :
  trimEnd s = "" \/ exists t c, trimEnd s = t ++ String c "" /\ is_space c = false.
Proof.
  induction s as [|c s IH]; simpl; [auto|].
  destruct (is_space c) eqn:Ec; simpl.
  - destruct (String.eqb_spec (trimEnd s) "") as [He|Hne]; [auto|].
    destruct IH as [IH|(t & d & Ht & Hd)]; [contradiction|].
    right. exists (String c t), d. rewrite Ht. auto.
  - right. destruct IH as [->|(t & d & Ht & Hd)].
    + exists "", c. auto.
    + exists (String c t), d. rewrite Ht. auto.
Qed.

(** A normal form is empty, or begins and ends with characters that are not
    white space. *)
Lemma normalize_ends (o : option string) :
  normalize o = "" \/
  (exists c t, normalize o = String c t /\ is_space c = false) /\
  (exists t c, normalize o = t ++ String c "" /\ is_space c = false).
Proof.
  unfold normalize, trim.
  destruct (trimStart_head (toLowerCase (default "" o))) as [->|(c & t & Hs & Hc)]; [auto|].
  right. split.
  - rewrite Hs, (trimEnd_cons c t Hc). eauto.
  - destruct (trimEnd_last (trimStart (toLowerCase (default "" o)))) as [He|Hlast];
      [|exact Hlast].
    rewrite Hs, (trimEnd_cons c t Hc) in He. discriminate.
Qed.

Lemma not_space_ne c : is_space c = false -> " "%char <> c.
Proof. intros H <-. discriminate. Qed.

(** X16: a keyword without the bar never matches across two fields: when it
    keeps a row, its normal form is empty or occurs inside the normal form
    of the process name, of the content or of the location. *)
Theorem match_lies_in_one_field a kw :
  ~ In "|"%char (list_ascii_of_string (normalize (Some kw))) ->
  matchesKeyword a kw = true ->
  normalize (Some kw) = "" \/
  exists fld,
    In fld ["processName"; "content"; "location"] /\
    substring_of (normalize (Some kw)) (normalize (a !! fld)).
Proof.
  intros Hbar Hm. apply matchesKeyword_spec in Hm as [He|Hocc]; [auto|].
  destruct (normalize_ends (Some kw)) as [He|[(c & t & Hhead & Hc) (t' & d & Hlast & Hd)]];
    [auto|].
  right. set (k := normalize (Some kw)) in *.
  assert (Hh : chars k = c :: chars t) by (rewrite Hhead; reflexivity).
  assert (Hl : chars k = (chars t' ++ [d])%list) by (rewrite Hlast, chars_append; reflexivity).
  apply not_space_ne in Hc, Hd.
  apply substring_of_chars in Hocc. rewrite haystack_unfold, !chars_append in Hocc.
  change (chars " | ") with [" "%char; "|"%char; " "%char] in Hocc.
  set (F1 := chars (normalize (a !! "processName"))) in *.
  set (F2 := chars (normalize (a !! "content"))) in *.
  set (F3 := chars (normalize (a !! "location"))) in *.
  assert (Hshape :
    (F1 ++ [" "%char; "|"%char; " "%char] ++ F2 ++ [" "%char; "|"%char; " "%char] ++ F3)%list =
    ((F1 ++ [" "%char]) ++ "|"%char :: ((" "%char :: F2 ++ [" "%char]) ++ "|"%char :: " "%char :: F3))%list).
  { rewrite <- !app_assoc. simpl. rewrite <- !app_assoc. reflexivity. }
  rewrite Hshape in Hocc. clear Hshape.
  apply (occurs_split _ _ _ _ Hbar) in Hocc as [H1|Hocc].
  - exists "processName". split; [simpl; auto|]. apply substring_of_chars.
    rewrite Hl in H1 |- *. exact (occurs_before _ _ _ _ Hd H1).
  - apply (occurs_split _ _ _ _ Hbar) in Hocc as [H2|H3].
    + exists "content". split; [simpl; auto|]. apply substring_of_chars.
      rewrite Hh in H2. apply (occurs_after _ _ _ _ Hc) in H2.
      rewrite <- Hh, Hl in H2. rewrite Hl. exact (occurs_before _ _ _ _ Hd H2).
    + exists "location". split; [simpl; auto|]. apply substring_of_chars.
      rewrite Hh in H3 |- *. exact (occurs_after _ _ _ _ Hc H3).
Qed.

End Keyword.

(** ** The page *)

Section PageFacts.
Import Client Page.

Implicit Types (a : row) (rows : list row) (kws : list string) (p : page).

Lemma typed_snoc kws kw p : typed (kws ++ [kw])%list p = on_input kw (typed kws p).
Proof. unfold typed. by rewrite fold_left_app. Qed.

(** The listener never touches the rows as loaded. *)
Lemma typed_allRows kws p : allRows (typed kws p) = allRows p.
Proof.
  revert p. induction kws as [|kw kws IH]; intros p; [reflexivity|].
  change (typed (kw :: kws) p) with (typed kws (on_input kw p)). by rewrite IH.
Qed.

Lemma search_empty_keyword rows : search "" rows = rows.
Proof.
  unfold search. induction rows as [|a rows IH]; [reflexivity|].
  simpl. by rewrite IH.
Qed.

Lemma search_length rows kw : length (search kw rows) <= length rows.
Proof.
  unfold search. induction rows as [|a rows IH]; simpl; [lia|].
  destruct (matchesKeyword a kw); simpl; lia.
Qed.

(** X18: whatever was typed before, the table shows the loaded rows filtered by
    the present value of the search box, never a filter of a filter; the
    status line counts the rows on display; and emptying the box brings
    every loaded row back. *)
Theorem typed_shows_last_keyword rows kws kw :
  let p := typed (kws ++ [kw])%list (loaded rows) in
  allRows p = rows /\
  current p = search kw rows /\
  statusText p = pretty (length (search kw rows)) ++ " record(s)" /\
  length (current p) <= length rows /\
  current (typed (kws ++ [""])%list (loaded rows)) = rows.
Proof.
  intros p. unfold p. rewrite !typed_snoc. unfold on_input. simpl.
  rewrite !typed_allRows. simpl.
  repeat split; try reflexivity.
  - apply search_length.
  - apply search_empty_keyword.
Qed.



End PageFacts.

(** ** These properties at the sample requests and rows *)

Section MoreInstances.
Import Samples Scenarios Routes Client Page.

Lemma serve_changes_only_on_success_witness :
  let run := serve evening (PutAssessments "3" payroll_review) a_disk in
  disk_write evening = Written /\
  (run.2 = a_disk \/
   (exists b, PutAssessments "3" payroll_review = PostAssessments b /\ status run.1 = 201%Z) \/
   (exists id b, PutAssessments "3" payroll_review = PutAssessments id b /\
                 status run.1 = 200%Z)).
Proof.
  intros run. split; [reflexivity|].
  exact (serve_changes_only_on_success evening (PutAssessments "3" payroll_review)
           a_disk run.2 run.1 eq_refl (surjective_pairing run)).
Defined.

Lemma put_missing_field_rejected_witness :
  (truthy (no_status !! "processName") = false \/
   truthy (no_status !! "status") = false) /\
  put_assessments evening "no such id" no_status Unreadable =
    ({| status := 400; body := error_body "Process Name and Status are required." |},
     Unreadable).
Proof.
  split; [right; reflexivity|].
  apply (put_missing_field_rejected evening "no such id" no_status Unreadable).
  right. reflexivity.
Defined.

Lemma mutation_without_array_fails_witness :
  missing_required payroll = false /\
  array_of not_an_array = None /\
  exists r, apply_mutation evening (Create payroll) not_an_array = (r, not_an_array) /\
            status r = 500%Z.
Proof.
  split; [reflexivity|]. split; [reflexivity|].
  apply (mutation_without_array_fails evening (Create payroll) not_an_array);
    reflexivity.
Defined.

Lemma put_null_entry_fails_witness :
  missing_required payroll_review = false /\
  array_of null_entry = Some ([] ++ JNull :: [JObj stored_payroll])%list /\
  Forall (fun a => ~ has_id "1" a) [] /\
  put_assessments evening "1" payroll_review null_entry =
    ({| status := 500; body := error_body "Failed to update assessment" |}, null_entry).
Proof.
  split; [reflexivity|]. split; [reflexivity|]. split; [constructor|].
  apply (put_null_entry_fails evening "1" payroll_review null_entry [] [JObj stored_payroll]);
    [reflexivity | reflexivity | constructor].
Defined.

Lemma put_replaces_first_match_witness :
  missing_required payroll_review = false /\
  stored twins [stored_payroll; twin] /\
  [stored_payroll; twin] !! 0 = Some stored_payroll /\
  stored_payroll !! "id" = Some (JStr "1") /\
  twin !! "id" = Some (JStr "1") /\
  (forall j r, j < 0 -> [stored_payroll; twin] !! j = Some r ->
               r !! "id" <> Some (JStr "1")) /\
  disk_write evening = Written /\
  exists rec,
    put_assessments evening "1" payroll_review twins =
      ({| status := 200; body := JObj rec |},
       collection (<[0 := rec]> [stored_payroll; twin])) /\
    forall j, j <> 0 -> <[0 := rec]> [stored_payroll; twin] !! j = [stored_payroll; twin] !! j.
Proof.
  split; [reflexivity|]. split; [reflexivity|]. split; [reflexivity|].
  split; [reflexivity|]. split; [reflexivity|]. split; [intros; lia|].
  split; [reflexivity|].
  apply (put_replaces_first_match evening "1" payroll_review twins
           [stored_payroll; twin] 0 stored_payroll);
    [reflexivity | reflexivity | reflexivity | reflexivity | intros; lia | reflexivity].
Defined.

Lemma put_merges_fields_witness :
  missing_required payroll_review = false /\
  stored two_records [stored_payroll; stored_audit] /\
  [stored_payroll; stored_audit] !! 1 = Some stored_audit /\
  stored_audit !! "id" = Some (JStr "2") /\
  (forall j r, j < 1 -> [stored_payroll; stored_audit] !! j = Some r ->
               r !! "id" <> Some (JStr "2")) /\
  disk_write evening = Written /\
  exists rec f',
    put_assessments evening "2" payroll_review two_records =
      ({| status := 200; body := JObj rec |}, f') /\
    dom rec = dom payroll_review ∪ dom stored_audit ∪ {[ "lastModified" ]} /\
    forall k, k <> "id" -> k <> "lastModified" ->
      (payroll_review !! k = None -> stored_audit !! k = None -> rec !! k = None) /\
      forall v, Values.number_free v ->
        (payroll_review !! k = Some v -> rec !! k = Some v) /\
        (payroll_review !! k = None -> stored_audit !! k = Some v -> rec !! k = Some v).
Proof.
  assert (Hfirst : forall j r, j < 1 -> [stored_payroll; stored_audit] !! j = Some r ->
                               r !! "id" <> Some (JStr "2")).
  { intros j r Hj Hr. assert (j = 0) as -> by lia.
    injection Hr as <-. vm_compute. discriminate. }
  split; [reflexivity|]. split; [reflexivity|]. split; [reflexivity|].
  split; [reflexivity|]. split; [exact Hfirst|]. split; [reflexivity|].
  apply (put_merges_fields evening "2" payroll_review two_records
           [stored_payroll; stored_audit] 1 stored_audit);
    [reflexivity | reflexivity | reflexivity | reflexivity | exact Hfirst | reflexivity].
Defined.

Lemma put_keeps_id_and_creation_date_witness :
  missing_required forged = false /\
  stored two_records [stored_payroll; stored_audit] /\
  [stored_payroll; stored_audit] !! 1 = Some stored_audit /\
  stored_audit !! "id" = Some (JStr "2") /\
  (forall j r, j < 1 -> [stored_payroll; stored_audit] !! j = Some r ->
               r !! "id" <> Some (JStr "2")) /\
  disk_write next_day = Written /\
  forged !! "id" = Some (JStr "mine") /\
  exists rec f',
    put_assessments next_day "2" forged two_records =
      ({| status := 200; body := JObj rec |}, f') /\
    rec !! "id" = Some (JStr "2") /\
    rec !! "lastModified" = Some (JStr (isoDate (new_Date next_day 0))) /\
    (forged !! "createdDate" = None ->
     rec !! "createdDate" = stored_audit !! "createdDate").
Proof.
  assert (Hfirst : forall j r, j < 1 -> [stored_payroll; stored_audit] !! j = Some r ->
                               r !! "id" <> Some (JStr "2")).
  { intros j r Hj Hr. assert (j = 0) as -> by lia.
    injection Hr as <-. vm_compute. discriminate. }
  split; [reflexivity|]. split; [reflexivity|]. split; [reflexivity|].
  split; [reflexivity|]. split; [exact Hfirst|]. split; [reflexivity|].
  split; [reflexivity|].
  apply (put_keeps_id_and_creation_date next_day "2" forged two_records
           [stored_payroll; stored_audit] 1 stored_audit);
    [reflexivity | reflexivity | reflexivity | reflexivity | exact Hfirst | reflexivity].
Defined.

Lemma post_get_round_trip_witness :
  missing_required with_medium = false /\
  array_of Missing = Some [] /\
  disk_write evening = Written /\
  Values.number_free (JStr "Electronic") /\
  with_medium !! "medium" = Some (JStr "Electronic") /\
  exists rec arr,
    body (get_assessments (post_assessments evening with_medium Missing).2).1 = JArr arr /\
    last arr = Some (JObj rec) /\
    dom rec = dom with_medium ∪ {[ "id"; "createdDate"; "lastModified" ]} /\
    forall k v, k <> "id" -> k <> "createdDate" -> k <> "lastModified" ->
      Values.number_free v -> with_medium !! k = Some v -> rec !! k = Some v.
Proof.
  split; [reflexivity|]. split; [reflexivity|]. split; [reflexivity|].
  split; [constructor|]. split; [reflexivity|].
  apply (post_get_round_trip evening with_medium Missing []); reflexivity.
Defined.

Lemma post_ids_collide_iff_same_millisecond_witness :
  missing_required payroll = false /\
  missing_required with_medium = false /\
  array_of Missing = Some [] /\
  disk_write evening = Written /\
  exists rec1 rec2 f1 f2,
    post_assessments evening payroll Missing =
      ({| status := 201; body := JObj rec1 |}, f1) /\
    post_assessments evening with_medium f1 =
      ({| status := 201; body := JObj rec2 |}, f2) /\
    array_of f2 = Some ([] ++ [JObj rec1; JObj rec2])%list /\
    (rec1 !! "id" = rec2 !! "id" <-> date_now evening = date_now evening).
Proof.
  split; [reflexivity|]. split; [reflexivity|]. split; [reflexivity|].
  split; [reflexivity|].
  apply (post_ids_collide_iff_same_millisecond evening evening payroll with_medium
           Missing []); reflexivity.
Defined.

Lemma post_then_put_by_returned_id_witness :
  missing_required payroll = false /\
  missing_required payroll_review = false /\
  stored two_records [stored_payroll; stored_audit] /\
  Forall (fun r => r !! "id" <> Some (JStr (pretty (date_now evening))))
    [stored_payroll; stored_audit] /\
  disk_write evening = Written /\
  disk_write next_day = Written /\
  exists rec rec' f1 f2,
    post_assessments evening payroll two_records =
      ({| status := 201; body := JObj rec |}, f1) /\
    put_assessments next_day (pretty (date_now evening)) payroll_review f1 =
      ({| status := 200; body := JObj rec' |}, f2) /\
    stored f2 ([stored_payroll; stored_audit] ++ [rec'])%list /\
    rec' !! "id" = rec !! "id" /\
    rec' !! "status" = payroll_review !! "status" /\
    (payroll_review !! "createdDate" = None ->
     rec' !! "createdDate" = rec !! "createdDate").
Proof.
  assert (Hfresh : Forall (fun r : gmap string json =>
                             r !! "id" <> Some (JStr (pretty (date_now evening))))
                     [stored_payroll; stored_audit]).
  { repeat constructor; vm_compute; discriminate. }
  split; [reflexivity|]. split; [reflexivity|]. split; [reflexivity|].
  split; [exact Hfresh|]. split; [reflexivity|]. split; [reflexivity|].
  apply (post_then_put_by_returned_id evening next_day payroll payroll_review
           two_records [stored_payroll; stored_audit]);
    [reflexivity | reflexivity | reflexivity | exact Hfresh | reflexivity | reflexivity].
Defined.

Lemma search_ignores_case_and_padding_witness :
  (toLowerCase "CALGARY" = toLowerCase "Calgary" \/ trim "CALGARY" = trim "Calgary") /\
  search "CALGARY" [alpha; beta] = search "Calgary" [alpha; beta].
Proof.
  split; [left; reflexivity|].
  apply (search_ignores_case_and_padding [alpha; beta] "CALGARY" "Calgary").
  left. reflexivity.
Defined.

Lemma search_narrows_witness :
  substring_of (normalize (Some "Cal")) (normalize (Some "Calgary ")) /\
  In alpha (search "Calgary " [alpha; beta]) /\
  In alpha (search "Cal" [alpha; beta]).
Proof.
  assert (Hsub : substring_of (normalize (Some "Cal")) (normalize (Some "Calgary "))).
  { exists "", "gary". vm_compute. reflexivity. }
  assert (Hin : In alpha (search "Calgary " [alpha; beta])).
  { vm_compute. left. reflexivity. }
  split; [exact Hsub|]. split; [exact Hin|].
  exact (search_narrows [alpha; beta] "Calgary " "Cal" alpha Hsub Hin).
Defined.

Lemma field_occurrence_matches_witness :
  In "location" ["processName"; "content"; "location"] /\
  substring_of (normalize (Some " DEER")) (normalize (beta !! "location")) /\
  matchesKeyword beta " DEER" = true.
Proof.
  assert (Hfld : In "location" ["processName"; "content"; "location"]).
  { right. right. left. reflexivity. }
  assert (Hsub : substring_of (normalize (Some " DEER")) (normalize (beta !! "location"))).
  { exists "red ", "". vm_compute. reflexivity. }
  split; [exact Hfld|]. split; [exact Hsub|].
  exact (field_occurrence_matches beta " DEER" "location" Hfld Hsub).
Defined.

Lemma match_lies_in_one_field_witness :
  ~ In "|"%char (list_ascii_of_string (normalize (Some "calgary"))) /\
  matchesKeyword alpha "calgary" = true /\
  (normalize (Some "calgary") = "" \/
   exists fld,
     In fld ["processName"; "content"; "location"] /\
     substring_of (normalize (Some "calgary")) (normalize (alpha !! fld))).
Proof.
  assert (Hbar : ~ In "|"%char (list_ascii_of_string (normalize (Some "calgary")))).
  { vm_compute. intros H. repeat (destruct H as [H|H]; [discriminate|]). exact H. }
  assert (Hm : matchesKeyword alpha "calgary" = true) by (vm_compute; reflexivity).
  split; [exact Hbar|]. split; [exact Hm|].
  exact (match_lies_in_one_field alpha "calgary" Hbar Hm).
Defined.

End MoreInstances.
